(** * noheir scripts: colour conversion and logo/favicon asset generation

    A shallow embedding of the Python scripts under [scripts/]:
    [hex_to_hsl.py], [update_color.py], [extract_logo_color.py],
    [generate_logo.py] and [generate_favicon.py].

    Python floats are IEEE 754 binary64 values: they are embedded as Rocq's
    primitive floats, whose operations are the same binary64 operations with
    round-to-nearest-even.  Python integers are [Z].  Strings are [string],
    read as sequences of code points in the Latin-1 range.  Exceptions and the
    observable effects of a run (divisions performed, lines printed, files
    written) are threaded through one small monad. *)

From Stdlib Require Import ZArith List Bool Lia.
From Stdlib Require Import Ascii String DecimalString HexadecimalString.
From Stdlib Require Import Floats.
Import ListNotations.

Local Open Scope string_scope.
Local Open Scope Z_scope.

(** ** Python values, exceptions and effects *)

Module Py.

Inductive exn : Type :=
| ValueError
| ZeroDivisionError
| OverflowError
| IndexError
| NameError
| ImportError
| OSError.

Inductive result (A : Type) : Type :=
| Ok (a : A)
| Raise (e : exn).
Arguments Ok {A} a.
Arguments Raise {A} e.

(** What a file written by a script holds, as far as the scripts decide it. *)
Inductive artifact : Type :=
| Text (content : string)
| Png (width height : Z)
| Ico (frames : list (Z * Z)).

(** Observable events of a run, in program order.  The working directory is
    taken to be writable: creating a directory or writing a file succeeds and
    is recorded. *)
Inductive event : Type :=
| EvDiv (dividend divisor : float)
| EvPrint (line : string)
| EvMkdir (path : string)
| EvWrite (path : string) (a : artifact).

(** A computation yields the events it performed and either a value or the
    exception that stopped it. *)
Definition M (A : Type) : Type := (list event * result A)%type.

Definition ret {A} (a : A) : M A := ([], Ok a).
Definition raise {A} (e : exn) : M A := ([], Raise e).
Definition emit (ev : event) : M unit := ([ev], Ok tt).

Definition bind {A B} (m : M A) (k : A -> M B) : M B :=
  match m with
  | (tr, Ok a) => let (tr', r) := k a in ((tr ++ tr')%list, r)
  | (tr, Raise e) => (tr, Raise e)
  end.

(** [try: body  except e: handler] *)
Definition exn_eqb (a b : exn) : bool :=
  match a, b with
  | ValueError, ValueError | ZeroDivisionError, ZeroDivisionError
  | OverflowError, OverflowError | IndexError, IndexError
  | NameError, NameError | ImportError, ImportError | OSError, OSError => true
  | _, _ => false
  end.

Definition try_except {A} (body : M A) (e : exn) (handler : M A) : M A :=
  match body with
  | (tr, Raise e') =>
      if exn_eqb e e' then let (tr', r) := handler in ((tr ++ tr')%list, r)
      else (tr, Raise e')
  | done => done
  end.

Definition events {A} (m : M A) : list event := fst m.
Definition outcome {A} (m : M A) : result A := snd m.

Definition lift {A} (r : result A) : M A := ([], r).

Declare Scope py_scope.
Delimit Scope py_scope with py.
Notation "x <- m ;; k" := (bind m (fun x => k))
  (at level 61, m at next level, right associativity) : py_scope.
Notation "m ;;; k" := (bind m (fun _ => k))
  (at level 61, right associativity) : py_scope.

(** *** Numbers *)

(** A Python number as the scripts use them: an [int] or a [float]. *)
Inductive num : Type :=
| Int (z : Z)
| Float (f : float).

(** [float(z)] for an [int]: correctly rounded, [OverflowError] when the
    integer is too large for a double. *)
Definition float_of_int (z : Z) : result float :=
  match binary_normalize prec emax z 0 false with
  | S754_infinity _ => Raise OverflowError
  | sf => Ok (SF2Prim sf)
  end.

Definition is_zero_float (f : float) : bool := PrimFloat.eqb f 0%float.

(** Float true division [x / y]: raises on a zero divisor. *)
Definition fdiv (x y : float) : M float :=
  bind (emit (EvDiv x y)) (fun _ =>
  if is_zero_float y then raise ZeroDivisionError else ret (x / y)%float).

(** [z / y] with [z] an [int] and [y] a [float]. *)
Definition int_div_float (z : Z) (y : float) : M float :=
  bind (lift (float_of_int z)) (fun x => fdiv x y).

(** C's [fmod]: the exact remainder of [x / y] truncated toward zero, with the
    sign of [x]. *)
Definition fmod (x y : float) : float :=
  if (abs x <? abs y)%float then x
  else
    match Prim2SF x, Prim2SF y with
    | S754_finite sx mx ex, S754_finite _ my ey =>
        let e := Z.min ex ey in
        let r := Z.rem (Zpos mx * 2 ^ (ex - e)) (Zpos my * 2 ^ (ey - e)) in
        SF2Prim (binary_normalize prec emax (if sx then - r else r) e sx)
    | _, _ => nan
    end.

(** Float [x % y] (CPython's [float_rem]): the result takes the sign of the
    divisor. *)
Definition float_mod (x y : float) : M float :=
  if is_zero_float y then raise ZeroDivisionError
  else
    let m := fmod x y in
    if is_zero_float m then ret (if get_sign y then neg_zero else zero)
    else if Bool.eqb (y <? 0)%float (m <? 0)%float then ret m
    else ret (m + y)%float.

(** [max(a, b, c)] and [min(a, b, c)] on floats: the first extremal item. *)
Definition max3 (a b c : float) : float :=
  let m := if (a <? b)%float then b else a in
  if (m <? c)%float then c else m.

Definition min3 (a b c : float) : float :=
  let m := if (b <? a)%float then b else a in
  if (c <? m)%float then c else m.

(** The integer nearest to [m * 2^e], ties to the even one. *)
Definition round_half_even (m : positive) (e : Z) : Z :=
  match e with
  | Zneg p =>
      let d := 2 ^ Zpos p in
      let q := Zpos m / d in
      let r := Zpos m mod d in
      match 2 * r ?= d with
      | Lt => q
      | Gt => q + 1
      | Eq => if Z.even q then q else q + 1
      end
  | _ => Zpos m * 2 ^ e
  end.

(** [round(x)] with one argument: an [int]. *)
Definition round_float (f : float) : result Z :=
  match Prim2SF f with
  | S754_nan => Raise ValueError
  | S754_infinity _ => Raise OverflowError
  | S754_zero _ => Ok 0
  | S754_finite s m e =>
      let n := round_half_even m e in Ok (if s then - n else n)
  end.

Definition round (x : num) : result Z :=
  match x with
  | Int z => Ok z
  | Float f => round_float f
  end.

(** [x * 100] where [x] is an [int] or a [float]. *)
Definition mul_int (x : num) (k : Z) : result num :=
  match x with
  | Int z => Ok (Int (z * k))
  | Float f =>
      match float_of_int k with
      | Ok kf => Ok (Float (f * kf))
      | Raise e => Raise e
      end
  end.

(** *** Strings *)

Definition ascii_in (c : ascii) (chars : string) : bool :=
  existsb (Ascii.eqb c) (list_ascii_of_string chars).

(** [s.lstrip(chars)]: drops every leading character that occurs in [chars]. *)
Fixpoint lstrip (s chars : string) : string :=
  match s with
  | String c s' => if ascii_in c chars then lstrip s' chars else s
  | EmptyString => s
  end.

(** [s[i:j]] for [0 <= i <= j]: clipped to the string. *)
Definition slice (s : string) (i j : nat) : string := substring i (j - i) s.

(** Whitespace skipped by [int()]: the ASCII blanks, and in the Latin-1 range
    NEL and NBSP, which [int()] first maps to a space. *)
Definition is_space (c : ascii) : bool :=
  let n := N_of_ascii c in
  (((9 <=? n) && (n <=? 13)) || (n =? 32) || (n =? 133) || (n =? 160))%N.

Fixpoint skip_spaces (s : string) : string :=
  match s with
  | String c s' => if is_space c then skip_spaces s' else s
  | EmptyString => s
  end.

Definition hex_digit_value (c : ascii) : option Z :=
  let n := Z.of_N (N_of_ascii c) in
  if (48 <=? n) && (n <=? 57) then Some (n - 48)
  else if (97 <=? n) && (n <=? 102) then Some (n - 87)
  else if (65 <=? n) && (n <=? 70) then Some (n - 55)
  else None.

(** The digit loop of [int(s, 16)]: digits with single underscores between
    them; returns the value and the unread rest. *)
Fixpoint scan_digits (s : string) (prev_underscore : bool) (acc : Z)
  : option (Z * string) :=
  match s with
  | String c s' =>
      if Ascii.eqb c "_" then
        if prev_underscore then None else scan_digits s' true acc
      else
        match hex_digit_value c with
        | Some d => scan_digits s' false (16 * acc + d)
        | None => if prev_underscore then None else Some (acc, s)
        end
  | EmptyString => if prev_underscore then None else Some (acc, s)
  end.

(** [int(s, 16)]: blanks, an optional sign, an optional [0x] prefix, digits,
    blanks; anything else is a [ValueError]. *)
Definition int16 (s : string) : result Z :=
  let s := skip_spaces s in
  let '(neg, s) :=
    match s with
    | String "+" t => (false, t)
    | String "-" t => (true, t)
    | _ => (false, s)
    end in
  let s :=
    match s with
    | String "0" (String x t) =>
        if Ascii.eqb x "x" || Ascii.eqb x "X" then
          match t with String "_" t' => t' | _ => t end
        else s
    | _ => s
    end in
  match s with
  | String c _ =>
      match hex_digit_value c with
      | Some _ =>
          match scan_digits s false 0 with
          | Some (v, rest) =>
              match skip_spaces rest with
              | EmptyString => Ok (if neg then - v else v)
              | _ => Raise ValueError
              end
          | None => Raise ValueError
          end
      | None => Raise ValueError
      end
  | EmptyString => Raise ValueError
  end.

(** [str(z)] for an [int]: decimal, with a minus sign when negative. *)
Definition str_of_int (z : Z) : string :=
  DecimalString.NilZero.string_of_int (Z.to_int z).

(** [repr] of a tuple of [int]s, as an f-string interpolates it. *)
Definition tuple_repr (t : list Z) : string :=
  match t with
  | [x] => "(" ++ str_of_int x ++ ",)"
  | _ => "(" ++ String.concat ", " (map str_of_int t) ++ ")"
  end.

(** ['{:02x}'.format(z)]: lowercase hexadecimal, zero-padded after the sign to
    a total width of 2. *)
Definition format_02x (z : Z) : string :=
  let digits := HexadecimalString.NilZero.string_of_uint (N.to_hex_uint (Z.abs_N z)) in
  let sign := if z <? 0 then "-" else "" in
  let pad := (2 - String.length sign - String.length digits)%nat in
  sign ++ string_of_list_ascii (repeat "0"%char pad) ++ digits.

Definition print (line : string) : M unit := emit (EvPrint line).

(** Name lookup in a function body: the function's locals, then the module's
    globals, then the builtins (listed: those the scripts call); a name bound
    in none of them is a [NameError]. *)
Definition builtins : list string :=
  ["print"; "len"; "int"; "round"; "max"; "min"; "abs"; "tuple"].

Definition load_name (locals globals : list string) (name : string) : M unit :=
  if existsb (String.eqb name) (locals ++ globals ++ builtins)%list then ret tt
  else raise NameError.

End Py.

Import Py.
Local Open Scope py_scope.

(** ** scripts/hex_to_hsl.py *)

Module HexToHsl.

Definition hex_to_hsl (hex_color : string) : M string :=
  let hex_color := lstrip hex_color "#" in
  r <- lift (int16 (slice hex_color 0 2)) ;;
  g <- lift (int16 (slice hex_color 2 4)) ;;
  b <- lift (int16 (slice hex_color 4 6)) ;;
  r <- int_div_float r 255 ;;
  g <- int_div_float g 255 ;;
  b <- int_div_float b 255 ;;
  let max_c := max3 r g b in
  let min_c := min3 r g b in
  let delta := (max_c - min_c)%float in
  (* Hue *)
  h <- (if is_zero_float delta then ret (Int 0)
        else if PrimFloat.eqb max_c r then
          q <- fdiv (g - b) delta ;;
          m <- float_mod q 6 ;;
          ret (Float (60 * m))
        else if PrimFloat.eqb max_c g then
          q <- fdiv (b - r) delta ;;
          ret (Float (60 * (q + 2)))
        else
          q <- fdiv (r - g) delta ;;
          ret (Float (60 * (q + 4)))) ;;
  (* Lightness *)
  l <- fdiv (max_c + min_c) 2 ;;
  (* Saturation *)
  s <- (if is_zero_float delta then ret (Int 0)
        else
          q <- fdiv delta (1 - abs (2 * l - 1)) ;;
          ret (Float q)) ;;
  h <- lift (round h) ;;
  s <- lift (mul_int s 100) ;;
  s <- lift (round s) ;;
  l <- lift (round_float (l * 100)) ;;
  ret (str_of_int h ++ " " ++ str_of_int s ++ "% " ++ str_of_int l ++ "%").

End HexToHsl.


(** ** scripts/update_color.py *)

Module UpdateColor.

Definition hex_to_hsl_hex (hex_color : string) : M string :=
  let hex_color := lstrip hex_color "#" in
  r <- lift (int16 (slice hex_color 0 2)) ;;
  g <- lift (int16 (slice hex_color 2 4)) ;;
  b <- lift (int16 (slice hex_color 4 6)) ;;
  r <- int_div_float r 255 ;;
  g <- int_div_float g 255 ;;
  b <- int_div_float b 255 ;;
  let max_c := max3 r g b in
  let min_c := min3 r g b in
  let delta := (max_c - min_c)%float in
  (* Hue *)
  h <- (if is_zero_float delta then ret (Int 0)
        else if PrimFloat.eqb max_c r then
          q <- fdiv (g - b) delta ;;
          m <- float_mod q 6 ;;
          ret (Float (60 * m))
        else if PrimFloat.eqb max_c g then
          q <- fdiv (b - r) delta ;;
          ret (Float (60 * (q + 2)))
        else
          q <- fdiv (r - g) delta ;;
          ret (Float (60 * (q + 4)))) ;;
  (* Lightness *)
  l <- fdiv (max_c + min_c) 2 ;;
  (* Saturation *)
  s <- (if is_zero_float delta then ret (Int 0)
        else
          q <- fdiv delta (1 - abs (2 * l - 1)) ;;
          ret (Float q)) ;;
  h <- lift (round h) ;;
  s <- lift (mul_int s 100) ;;
  s <- lift (round s) ;;
  l <- lift (round_float (l * 100)) ;;
  ret (str_of_int h ++ " " ++ str_of_int s ++ "% " ++ str_of_int l ++ "%").

End UpdateColor.

(** ** The imaging library (PIL) as the scripts use it *)

Module PIL.

(** A decoded raster: its size and the tuple of channel values at each
    position. *)
Record image : Type := {
  width : Z;
  height : Z;
  pixels : Z -> Z -> list Z
}.

(** A file that [Image.open] can decode into an image of at least one pixel. *)
Definition loaded (img : image) : Prop := 0 < width img /\ 0 < height img.

(** [Image.open(path)]: fails when the file is missing or is not a raster. *)
Definition open_image (file : option image) : M image :=
  match file with
  | Some img => ret img
  | None => raise OSError
  end.

(** [img.getpixel((x, y))]: a negative coordinate counts from the far edge;
    a position outside the image is an [IndexError]. *)
Definition getpixel (img : image) (xy : Z * Z) : M (list Z) :=
  let '(x, y) := xy in
  let x := if x <? 0 then width img + x else x in
  let y := if y <? 0 then height img + y else y in
  if (x <? 0) || (width img <=? x) || (y <? 0) || (height img <=? y)
  then raise IndexError
  else ret (pixels img x y).

(** What the library's resampling code computes, which no script decides:
    the pixel values of a resized copy, and the size a frame takes when it is
    scaled proportionally into a box. *)
Record codec : Type := {
  resample : image -> Z * Z -> Z -> Z -> list Z;
  thumbnail_size : Z * Z -> Z * Z -> Z * Z
}.

(** A square image scaled into a square box that is not larger fills it. *)
Definition thumbnail_square (lib : codec) : Prop :=
  forall n s, 0 < s <= n -> thumbnail_size lib (n, n) (s, s) = (s, s).

Section Codec.
Variable lib : codec.

(** [img.resize(size)]: a new image of exactly the requested size. *)
Definition resize (img : image) (size : Z * Z) : image :=
  {| width := fst size; height := snd size; pixels := resample lib img size |}.

(** [img.save(path, "PNG")] *)
Definition save_png (img : image) (path : string) : M unit :=
  emit (EvWrite path (Png (width img) (height img))).

(** The frames of [img.save(path, format="ICO", sizes=sizes)]: a requested
    size larger than the image, or than 256, is ignored; the image is scaled
    proportionally into each of the others. *)
Definition ico_frames (img : image) (sizes : list (Z * Z)) : list (Z * Z) :=
  map (thumbnail_size lib (width img, height img))
      (filter (fun '(w, h) =>
                 negb ((width img <? w) || (height img <? h)
                       || (256 <? w) || (256 <? h)))
              sizes).

Definition save_ico (img : image) (path : string) (sizes : list (Z * Z))
  : M unit :=
  emit (EvWrite path (Ico (ico_frames img sizes))).

End Codec.

End PIL.

Import PIL.

(** ** scripts/extract_logo_color.py *)

Module ExtractLogoColor.

Definition rgb_to_hex (rgb : list Z) : M string :=
  let rgb := if (List.length rgb =? 4)%nat then firstn 3 rgb else rgb in
  match rgb with
  | r :: g :: b :: _ => ret ("#" ++ format_02x r ++ format_02x g ++ format_02x b)
  | _ => raise IndexError
  end.

(** The script, run where [files] tells which paths hold a decodable image. *)
Definition script (lib : codec) (files : string -> option image) : M unit :=
  img <- open_image (files "logo.png") ;;
  let small_img := resize lib img (1, 1) in
  avg_color <- getpixel small_img (0, 0) ;;
  top_left <- getpixel img (100, 100) ;;
  bottom_right <- getpixel img (width img - 100, height img - 100) ;;
  center <- getpixel img (width img / 2, height img / 2) ;;
  print ("Average color: rgb" ++ tuple_repr avg_color) ;;;
  print ("Top-left (darker): rgb" ++ tuple_repr top_left) ;;;
  print ("Bottom-right (lighter): rgb" ++ tuple_repr bottom_right) ;;;
  print ("Center: rgb" ++ tuple_repr center) ;;;
  print "" ;;;
  h <- rgb_to_hex avg_color ;;
  print ("Average: " ++ h) ;;;
  h <- rgb_to_hex top_left ;;
  print ("Top-left (recommended primary): " ++ h) ;;;
  h <- rgb_to_hex bottom_right ;;
  print ("Bottom-right: " ++ h) ;;;
  h <- rgb_to_hex center ;;
  print ("Center: " ++ h).

End ExtractLogoColor.

(** ** scripts/generate_logo.py *)

Module GenerateLogo.

Definition original_logo : string := "logo.png".
Definition output_dir : string := "public/logo".

(** [os.path.join(a, b)] for a relative [b]. *)
Definition path_join (a b : string) : string := a ++ "/" ++ b.

(** Sizes to generate (name: (width, height)), in insertion order. *)
Definition sizes : list (string * (Z * Z)) :=
  [ ("32", (32, 32));
    ("64", (64, 64));
    ("128", (128, 128));
    ("256", (256, 256)) ].

Definition ico_sizes : list (Z * Z) := [(16, 16); (32, 32); (64, 64)].

Fixpoint for_each {A} (items : list A) (body : A -> M unit) : M unit :=
  match items with
  | [] => ret tt
  | x :: rest => body x ;;; for_each rest body
  end.

(** The script, run where [files] tells which paths hold a decodable image. *)
Definition script (lib : codec) (files : string -> option image) : M unit :=
  emit (EvMkdir output_dir) ;;;
  img <- open_image (files original_logo) ;;
  for_each sizes (fun '(name, size) =>
    let resized := resize lib img size in
    let output_path := path_join output_dir ("logo-" ++ name ++ ".png") in
    save_png resized output_path ;;;
    print ("Generated: " ++ output_path)) ;;;
  let ico_path := path_join "public" "favicon-new.ico" in
  save_ico lib img ico_path ico_sizes ;;;
  print ("Generated: " ++ ico_path) ;;;
  print (String "010" "All logos generated successfully!").

End GenerateLogo.

(** ** scripts/generate_favicon.py *)

Module GenerateFavicon.

Section Markup.
(** The literal returned by [generate_favicon_svg] (the fixed vector icon). *)
Variable svg : string.
(** The pixels that the drawing calls of [generate_favicon_png] render. *)
Variable drawing : Z -> Z -> list Z.

Definition generate_favicon_svg : string := svg.

(** Names bound at module level, and names assigned in the body of [main]. *)
Definition module_globals : list string :=
  ["base64"; "Path"; "generate_favicon_svg"; "generate_favicon_png"; "main"].

Definition main_locals : list string :=
  ["output_dir"; "svg_content"; "svg_path"; "Image"; "png_data"; "png_path";
   "img"; "ico_path"].

(** [from PIL import ...]: an [ImportError] when the library is not
    installed. *)
Definition import_pil (pil_installed : bool) : M unit :=
  if pil_installed then ret tt else raise ImportError.

(** The 64x64 icon drawn by [generate_favicon_png], PNG-encoded; [None] when
    the library is missing. *)
Definition generate_favicon_png (pil_installed : bool) : M (option artifact) :=
  try_except
    (import_pil pil_installed ;;;
     let size := 64 in
     ret (Some (Png size size)))
    ImportError
    (ret None).

(** [Image.open] on PNG bytes held in memory. *)
Definition decode (data : artifact) : option image :=
  match data with
  | Png w h => Some {| width := w; height := h; pixels := drawing |}
  | _ => None
  end.

(** [main()], with paths relative to the repository root
    ([Path(__file__).parent.parent]). *)
Definition main (lib : codec) (pil_installed : bool) : M unit :=
  let output_dir := "public" in
  emit (EvMkdir output_dir) ;;;
  (* Generate SVG favicon *)
  let svg_content := generate_favicon_svg in
  let svg_path := output_dir ++ "/favicon.svg" in
  emit (EvWrite svg_path (Text svg_content)) ;;;
  print ("✓ Generated SVG favicon: " ++ svg_path) ;;;
  (* Try to generate PNG/ICO if PIL is available *)
  try_except
    (import_pil pil_installed ;;;
     png_data <- generate_favicon_png pil_installed ;;
     match png_data with
     | Some data =>
         let png_path := output_dir ++ "/favicon-64x64.png" in
         emit (EvWrite png_path data) ;;;
         print ("✓ Generated PNG favicon: " ++ png_path) ;;;
         (* Generate ICO: Image.open(io.BytesIO(png_data)) *)
         load_name main_locals module_globals "Image" ;;;
         load_name main_locals module_globals "io" ;;;
         img <- open_image (decode data) ;;
         let ico_path := output_dir ++ "/favicon.ico" in
         save_ico lib img ico_path [(32, 32); (64, 64)] ;;;
         print ("✓ Generated ICO favicon: " ++ ico_path)
     | None => ret tt
     end)
    ImportError
    (print "⚠ PIL not available, only SVG favicon generated" ;;;
     print "  Install with: pip install pillow") ;;;
  print (String "010" "✨ Favicon generation complete!").

End Markup.

End GenerateFavicon.

(** * Vocabulary of the claims *)

Module Spec.

(** The string ["H S% L%"]. *)
Definition hsl_string (h s l : Z) : string :=
  str_of_int h ++ " " ++ str_of_int s ++ "% " ++ str_of_int l ++ "%".

Definition hex_digits : string := "0123456789abcdefABCDEF".

Definition is_hex6 (t : string) : bool :=
  (String.length t =? 6)%nat
  && forallb (fun c => ascii_in c hex_digits) (list_ascii_of_string t).

(** Exactly six hexadecimal digits once the leading [#] is stripped. *)
Definition hex6_input (s : string) : Prop := is_hex6 (lstrip s "#") = true.

(** A channel value. *)
Definition byte (z : Z) : Prop := 0 <= z <= 255.

(** The float that a channel value becomes: [z / 255.0]. *)
Definition normalised (z : Z) : float :=
  (SF2Prim (binary_normalize prec emax z 0 false) / 255)%float.

(** The divisors of the divisions a run performed, in order. *)
Definition divisors (tr : list event) : list float :=
  flat_map (fun ev => match ev with EvDiv _ d => [d] | _ => [] end) tr.

Definition no_zero_divisor (tr : list event) : Prop :=
  Forall (fun d => is_zero_float d = false) (divisors tr).

(** The files a run wrote, in order. *)
Definition written (tr : list event) : list (string * artifact) :=
  flat_map (fun ev => match ev with EvWrite p a => [(p, a)] | _ => [] end) tr.

(** Two-digit lowercase hexadecimal, written out. *)
Definition hex_char (n : Z) : ascii :=
  nth (Z.to_nat n) (list_ascii_of_string "0123456789abcdef") "0"%char.

Definition hex2 (z : Z) : string :=
  String (hex_char (z / 16)) (String (hex_char (z mod 16)) "").

(** The outputs of generate_logo.py. *)
Definition png_outputs : list (string * artifact) :=
  [ ("public/logo/logo-32.png", Png 32 32);
    ("public/logo/logo-64.png", Png 64 64);
    ("public/logo/logo-128.png", Png 128 128);
    ("public/logo/logo-256.png", Png 256 256) ].

Definition ico_output (frames : list (Z * Z)) : string * artifact :=
  ("public/favicon-new.ico", Ico frames).

(** A codec and images to run the scripts on. *)
Definition nearest : codec :=
  {| resample := fun img _ _ _ => pixels img 0 0;
     thumbnail_size := fun _ box => box |}.

Definition flat_image (w h : Z) : image :=
  {| width := w; height := h; pixels := fun _ _ => [59; 88; 148; 255] |}.

(** An image whose pixel at (x, y) shows its own position. *)
Definition ramp_image (w h : Z) : image :=
  {| width := w; height := h; pixels := fun x y => [x mod 256; y mod 256; 0] |}.

(** A working directory whose only image is [img], at [logo.png]. *)
Definition logo_file (img : image) (path : string) : option image :=
  if String.eqb path "logo.png" then Some img else None.

(** [p] holds of [z], [z + 1], ..., [fuel] values in all. *)
Fixpoint all_below (fuel : nat) (z : Z) (p : Z -> bool) : bool :=
  match fuel with
  | O => true
  | S k => p z && all_below k (z + 1) p
  end.

Local Open Scope float_scope.

(** What it means for a converter to divide safely on the input [s]: its
    divisors are the three 255s, then [delta] (hue), 2 (lightness) and
    [1 - |2l - 1|] (saturation) when [delta] is nonzero, and the 255s and the
    2 only when [delta] is zero; none of them is zero, and the run returns. *)
Definition divides_safely (f : string -> M string) (s : string) : Prop :=
  exists R G B,
    int16 (slice (lstrip s "#") 0 2) = Ok R
    /\ int16 (slice (lstrip s "#") 2 4) = Ok G
    /\ int16 (slice (lstrip s "#") 4 6) = Ok B
    /\ let r := normalised R in
       let g := normalised G in
       let b := normalised B in
       let delta := max3 r g b - min3 r g b in
       let l := (max3 r g b + min3 r g b) / 2 in
       let den := 1 - abs (2 * l - 1) in
       divisors (events (f s))
       = (if is_zero_float delta then [255; 255; 255; 2]
          else [255; 255; 255; delta; 2; den])
       /\ (is_zero_float delta = false -> is_zero_float den = false)
       /\ no_zero_divisor (events (f s))
       /\ exists out, outcome (f s) = Ok out.

(** *** Definitions used by the proofs *)

(** The events [tr], then the run [m]. *)
Definition prepend {A} (tr : list event) (m : M A) : M A :=
  ((tr ++ events m)%list, outcome m).

(** The body of the converter from [max_c] on, as a function of the three
    normalised channels. *)
Definition hsl_tail (r g b : float) : M string :=
  let max_c := max3 r g b in
  let min_c := min3 r g b in
  let delta := max_c - min_c in
  h <- (if is_zero_float delta then ret (Int 0)
        else if max_c =? r then
          q <- fdiv (g - b) delta ;;
          m <- float_mod q 6 ;;
          ret (Float (60 * m))
        else if max_c =? g then
          q <- fdiv (b - r) delta ;;
          ret (Float (60 * (q + 2)))
        else
          q <- fdiv (r - g) delta ;;
          ret (Float (60 * (q + 4)))) ;;
  l <- fdiv (max_c + min_c) 2 ;;
  s <- (if is_zero_float delta then ret (Int 0)
        else
          q <- fdiv delta (1 - abs (2 * l - 1)) ;;
          ret (Float q)) ;;
  h <- lift (round h) ;;
  s <- lift (mul_int s 100) ;;
  s <- lift (round s) ;;
  l <- lift (round_float (l * 100)) ;;
  ret (str_of_int h ++ " " ++ str_of_int s ++ "% " ++ str_of_int l ++ "%")%string.

Definition in_range (x bound : float) : bool := (0 <=? x) && (x <? bound).

(** [q % 6] for [|q| < 6]. *)
Definition wrap6 (q : float) : float :=
  if is_zero_float q then 0 else if q <? 0 then q + 6 else q.

(** What is evaluated on all channel triples: the quantities the converter
    rounds lie in the ranges that round into the documented intervals, and no
    divisor vanishes. *)
Definition check (r g b : float) : bool :=
  let max_c := max3 r g b in
  let min_c := min3 r g b in
  let delta := max_c - min_c in
  let l := (max_c + min_c) / 2 in
  in_range (l * 100) 100.5 &&
  (if is_zero_float delta then true
   else
     let den := 1 - abs (2 * l - 1) in
     (if max_c =? r then
        let q := (g - b) / delta in
        (abs q <? 6) && in_range (60 * wrap6 q) 360.5
      else if max_c =? g then in_range (60 * ((b - r) / delta + 2)) 360.5
      else in_range (60 * ((r - g) / delta + 4)) 360.5)
     && negb (is_zero_float den)
     && in_range (delta / den * 100) 100.5).

Definition all_triples (cs : list float) : bool :=
  forallb (fun r => forallb (fun g => forallb (fun b => check r g b) cs) cs) cs.

Definition byte_values : list Z := map Z.of_nat (seq 0 256).

Definition channel_floats : list float := map normalised byte_values.

Definition gray_check (x : float) : bool :=
  is_zero_float (max3 x x x - min3 x x x).

End Spec.

Import Spec.

(** ** The scripts around the converters *)

(** [f"{s:25s}"]: [s] padded on the right with blanks to a width of 25. *)
Definition ljust25 (s : string) : string :=
  s ++ string_of_list_ascii (repeat " "%char (25 - String.length s)).

Module HexToHslScript.

(** Logo colors from analysis, in insertion order. *)
Definition logo_colors : list (string * string) :=
  [ ("primary (top-left)", "#3b5894");
    ("lighter variant", "#4a6bb0");
    ("much lighter", "#6d82ad") ].

(** The loop [for name, hex_color in colors.items()] of the script. *)
Fixpoint report (colors : list (string * string)) : M unit :=
  match colors with
  | [] => ret tt
  | (name, hex_color) :: rest =>
      hsl <- HexToHsl.hex_to_hsl hex_color ;;
      print (ljust25 name ++ ": " ++ hex_color ++ " -> " ++ hsl) ;;;
      report rest
  end.

(** The module-level code of hex_to_hsl.py. *)
Definition script : M unit :=
  print "CSS HSL values for logo colors:" ;;;
  print (string_of_list_ascii (repeat "="%char 50)) ;;;
  report logo_colors ;;;
  print "" ;;;
  (* Primary color suggestions *)
  primary <- HexToHsl.hex_to_hsl "#3b5894" ;;
  primary_light <- HexToHsl.hex_to_hsl "#6d82ad" ;;
  primary_dark <- HexToHsl.hex_to_hsl "#2a4580" ;;
  print "Recommended CSS variables:" ;;;
  print (string_of_list_ascii (repeat "="%char 50)) ;;;
  print ("--primary: " ++ primary ++ ";           /* Main logo color */") ;;;
  print ("--primary-light: " ++ primary_light ++ ";   /* Lighter variant */") ;;;
  print ("--primary-dark: " ++ primary_dark ++ ";     /* Darker variant */").

End HexToHslScript.

Module UpdateColorScript.

(** The module-level code of update_color.py. *)
Definition script : M unit :=
  let new_primary := "#3b5a95" in
  hsl <- UpdateColor.hex_to_hsl_hex new_primary ;;
  print ("Primary color: " ++ new_primary) ;;;
  print ("HSL: " ++ hsl) ;;;
  print "" ;;;
  print ("CSS variable: --primary: " ++ hsl ++ ";").

End UpdateColorScript.

(** * Vocabulary of the further properties *)

Module Spec2.

(** [n] leading '#' characters. *)
Fixpoint hashes (n : nat) : string :=
  match n with
  | O => ""
  | S k => String "#" (hashes k)
  end.

(** ASCII lower-casing, as [str.lower] does on hexadecimal digits. *)
Definition ascii_lower (c : ascii) : ascii :=
  let n := N_of_ascii c in
  if ((65 <=? n) && (n <=? 90))%N then ascii_of_N (n + 32) else c.

Fixpoint string_lower (s : string) : string :=
  match s with
  | EmptyString => s
  | String c s' => String (ascii_lower c) (string_lower s')
  end.

(** [n] is an integer nearest to the fraction [p / q] (either one at a tie). *)
Definition nearest_to (n p q : Z) : Prop := 2 * Z.abs (n * q - p) <= q.

Definition nearestb (n p q : Z) : bool := 2 * Z.abs (n * q - p) <=? q.

(** The run's only effects are divisions. *)
Definition only_divisions {A} (m : M A) : Prop :=
  Forall (fun ev => match ev with EvDiv _ _ => True | _ => False end) (events m).

(** What the converter returns on [c], or the empty string when it raises. *)
Definition converted (c : string) : string :=
  match outcome (HexToHsl.hex_to_hsl c) with
  | Ok hsl => hsl
  | Raise _ => ""
  end.

(** The hexadecimal form of the first three channels of a pixel. *)
Definition hex_of_pixel (px : list Z) : string :=
  "#" ++ format_02x (nth 0 px 0) ++ format_02x (nth 1 px 0)
      ++ format_02x (nth 2 px 0).

(** The lines a run printed, in order. *)
Definition printed (tr : list event) : list string :=
  flat_map (fun ev => match ev with EvPrint l => [l] | _ => [] end) tr.

(** Every pixel of the image, and its 1x1 reduction, has at least three
    channels. *)
Definition three_channels (lib : codec) (img : image) : Prop :=
  Nat.le 3 (List.length (resample lib img (1, 1) 0 0))
  /\ forall x y, Nat.le 3 (List.length (pixels img x y)).

(** The square frames, among the requested ones, that a square source of side
    [n] has room for. *)
Definition frames_within (n : Z) : list (Z * Z) :=
  map (fun s => (s, s)) (filter (fun s => s <=? n) [16; 32; 64]).

(** *** Definitions used by the proofs *)

Definition byte_table : list (Z * float) :=
  map (fun z => (z, normalised z)) byte_values.

(** The order of two channel floats is the order of the channel values. *)
Definition order_check (a b : Z * float) : bool :=
  Bool.eqb (snd a <? snd b)%float (fst a <? fst b).

(** [m / d] rounded to the nearest integer, ties to the even one. *)
Definition rne_div (m d : Z) : Z :=
  let q := m / d in
  match 2 * (m mod d) ?= d with
  | Lt => q
  | Gt => q + 1
  | Eq => if Z.even q then q else q + 1
  end.

(** The double [n / 2]. *)
Definition half_float (n : Z) : float :=
  SF2Prim (binary_normalize prec emax n (-1) false).

(** Intervals of doubles on which [round_float] is constant, with its value:
    for each [k] from 0 to 100, the doubles from 0 or above [k - 1/2] to below
    [k + 1/2], then the tie [k + 1/2] alone. *)
Definition round_windows : list (float * float * Z) :=
  flat_map
    (fun k =>
       [ (if k =? 0 then 0%float else next_up (half_float (2 * k - 1)),
          next_down (half_float (2 * k + 1)), k);
         (half_float (2 * k + 1), half_float (2 * k + 1),
          if Z.even k then k else k + 1) ])
    (map Z.of_nat (seq 0 101)).

Definition window_ok (w : float * float * Z) : bool :=
  let '(lo, hi, n) := w in
  (0 <=? lo)%float
  && match round_float lo, round_float hi with
     | Ok a, Ok b => (a =? n) && (b =? n)
     | _, _ => false
     end.

Definition find_window (x : float) (ws : list (float * float * Z)) : option Z :=
  option_map snd
    (find (fun w => (fst (fst w) <=? x)%float && (x <=? snd (fst w))%float) ws).

(** [round_float x] by comparisons, for an [x] whose rounding is [k] or a
    neighbour of [k]. *)
Definition fast_round (x : float) (k : Z) : option Z :=
  find_window x (firstn 4 (skipn (Z.to_nat (2 * k - 2)) round_windows)).

(** An integer nearest to [p / q]. *)
Definition guess (p q : Z) : Z := (2 * p + q) / (2 * q).

(** On a pair of a largest and a smallest channel, the rounded lightness and
    saturation are nearest integers to the exact percentages. *)
Definition exact_check (hi lo : Z * float) : bool :=
  let '(M, fM) := hi in
  let '(m, fm) := lo in
  if M <? m then true
  else
    let delta := (fM - fm)%float in
    let l := ((fM + fm) / 2)%float in
    let den := (1 - abs (2 * l - 1))%float in
    Bool.eqb (is_zero_float delta) (M =? m)
    && match fast_round (l * 100) (guess (10 * (M + m)) 51) with
       | Some li => nearestb li (10 * (M + m)) 51
       | None => false
       end
    && (if M =? m then true
        else
          let q := 255 - Z.abs (M + m - 255) in
          match fast_round (delta / den * 100) (guess (100 * (M - m)) q) with
          | Some sat => nearestb sat (100 * (M - m)) q
          | None => false
          end).

Definition all_pairs {A} (p : A -> A -> bool) (xs : list A) : bool :=
  forallb (fun a => forallb (fun b => p a b) xs) xs.

(** Two hexadecimal digits of lowercase [hex2] that read back as [z]. *)
Definition hex2_check (z : Z) : bool :=
  match hex2 z with
  | String a (String b EmptyString) =>
      ascii_in a hex_digits && ascii_in b hex_digits
      && negb (ascii_in a "#")
      && match int16 (hex2 z) with Ok v => v =? z | Raise _ => false end
  | _ => false
  end.

End Spec2.

Import Spec2.

(** * Verification *)

(** ** The built-ins on known values *)

Module BuiltinFacts.

Example round_ties_to_even :
  map round_float [0.5; 1.5; 2.5; (-0.5); (-1.5); 42.5; 43.5]%float
  = map Ok [0; 2; 2; 0; -2; 42; 44].
Proof. vm_compute. reflexivity. Qed.

Example round_rejects_nan_and_infinity :
  round_float nan = Raise ValueError
  /\ round_float infinity = Raise OverflowError.
Proof. split; reflexivity. Qed.

Example float_mod_takes_sign_of_divisor :
  map (fun x => outcome (float_mod x 6)) [7.5; (-7.5); 13; (-6); 0.25]%float
  = map Ok [1.5; 4.5; 1; 0; 0.25]%float.
Proof. vm_compute. reflexivity. Qed.

Example int16_literals :
  map int16 ["3b"; "FF"; " f"; "f "; "+f"; "-f"; "0b"; "0x1f"; "1_f"]
  = map Ok [59; 255; 15; 15; 15; -15; 11; 31; 31].
Proof. vm_compute. reflexivity. Qed.

Example int16_rejects :
  map int16 [""; "0x"; "g"; "1_"; "_1"; "+ 1"; "1 2"; "#1"]
  = repeat (Raise ValueError) 8.
Proof. vm_compute. reflexivity. Qed.

Example lstrip_drops_every_leading_hash :
  lstrip "##3b#" "#" = "3b#" /\ slice "3b589" 4 6 = "9" /\ slice "3b58" 4 6 = "".
Proof. repeat split. Qed.

Example format_02x_pads_after_sign :
  map format_02x [0; 10; 255; 256; -1] = ["00"; "0a"; "ff"; "100"; "-1"].
Proof. vm_compute. reflexivity. Qed.

Example tuple_repr_of_pixel :
  tuple_repr [59; 88; 148; 255] = "(59, 88, 148, 255)".
Proof. vm_compute. reflexivity. Qed.

End BuiltinFacts.

(** ** The converter *)

Module HslFacts.

Lemma digits2_pos_bound (m : positive) : Zpos m < 2 ^ Zpos (digits2_pos m).
Proof.
  induction m as [m IH | m IH |]; simpl digits2_pos.
  - rewrite Pos2Z.inj_succ, Z.pow_succ_r by lia. lia.
  - rewrite Pos2Z.inj_succ, Z.pow_succ_r by lia. lia.
  - reflexivity.
Qed.

Lemma valid_mantissa_bound s m e :
  valid_binary (S754_finite s m e) = true -> Zpos m < 2 ^ 53.
Proof.
  unfold valid_binary, bounded, canonical_mantissa, fexp.
  intros H. apply andb_prop in H as [H _]. apply Z.eqb_eq in H.
  pose proof (digits2_pos_bound m) as Hd.
  assert (Zpos (digits2_pos m) <= 53) by (unfold prec in H; lia).
  eapply Z.lt_le_trans; [exact Hd |].
  apply Z.pow_le_mono_r; lia.
Qed.

Lemma round_half_even_range m e N :
  0 <= N -> e < 0 -> 2 * Zpos m < (2 * N + 1) * 2 ^ (- e) ->
  0 <= round_half_even m e <= N.
Proof.
  intros HN He Hm. destruct e as [| p | p]; try lia.
  unfold round_half_even. cbn [Z.opp] in Hm.
  set (d := 2 ^ Zpos p) in *.
  assert (Hd : 0 < d) by (apply Z.pow_pos_nonneg; lia).
  pose proof (Z.div_mod (Zpos m) d ltac:(lia)) as Hdm.
  pose proof (Z.mod_pos_bound (Zpos m) d Hd) as Hr.
  set (q := Zpos m / d) in *. set (r := Zpos m mod d) in *.
  assert (Hq : 0 <= q) by (apply Z.div_pos; lia).
  assert (HqN : q <= N) by nia.
  destruct (Z.compare_spec (2 * r) d) as [Heq | Hlt | Hgt].
  - destruct (Z.even q); [lia |]. assert (q <> N) by nia. lia.
  - lia.
  - assert (q <> N) by nia. lia.
Qed.

Local Open Scope float_scope.

(** A float in [[0, N + 1/2)] rounds to an integer in [[0, N]]. *)
Lemma round_float_in_range x bound mb eb N :
  Prim2SF bound = S754_finite false mb eb ->
  (0 <= N)%Z -> (eb < 0)%Z -> (2 ^ 52 <= Zpos mb)%Z ->
  (2 * Zpos mb = (2 * N + 1) * 2 ^ (- eb))%Z ->
  in_range x bound = true ->
  exists n, round_float x = Ok n /\ (0 <= n <= N)%Z.
Proof.
  intros Hb HN Heb Hmb HbN Hx. unfold in_range in Hx.
  apply andb_prop in Hx as [H0 Hlt].
  rewrite leb_spec in H0. rewrite ltb_spec, Hb in Hlt.
  pose proof (Prim2SF_valid x) as Hv.
  unfold round_float.
  destruct (Prim2SF x) as [s | s | | s m e].
  - exists 0%Z. split; [reflexivity | lia].
  - destruct s; [discriminate H0 | discriminate Hlt].
  - discriminate Hlt.
  - destruct s; [discriminate H0 |].
    apply valid_mantissa_bound in Hv.
    exists (round_half_even m e). split; [reflexivity |].
    unfold SFltb, SFcompare in Hlt.
    destruct (Z.compare_spec e eb) as [He | He | He]; try discriminate Hlt.
    + subst e. apply round_half_even_range; try lia.
      rewrite Pos.compare_cont_spec in Hlt. cbn [Pos.switch_Eq] in Hlt.
      destruct (Pos.compare_spec m mb); try discriminate Hlt. lia.
    + apply round_half_even_range; try lia.
      assert (Hp : (2 ^ (- eb + 1) <= 2 ^ (- e))%Z) by (apply Z.pow_le_mono_r; lia).
      rewrite Z.pow_add_r in Hp by lia. nia.
Qed.

Lemma round_hue x :
  in_range x 360.5 = true -> exists n, round_float x = Ok n /\ (0 <= n <= 360)%Z.
Proof.
  apply (round_float_in_range x 360.5 6341983069011968%positive (-44) 360);
    [reflexivity | lia | lia | lia | reflexivity].
Qed.

Lemma round_percent x :
  in_range x 100.5 = true -> exists n, round_float x = Ok n /\ (0 <= n <= 100)%Z.
Proof.
  apply (round_float_in_range x 100.5 7072058789855232%positive (-46) 100);
    [reflexivity | lia | lia | lia | reflexivity].
Qed.


Lemma bind_ok {A B} tr (a : A) (k : A -> M B) :
  bind (tr, Ok a) k = ((tr ++ events (k a))%list, outcome (k a)).
Proof. unfold bind. destruct (k a). reflexivity. Qed.

Lemma bind_lift_ok {A B} (a : A) (k : A -> M B) : bind (lift (Ok a)) k = k a.
Proof. unfold lift, bind. destruct (k a). reflexivity. Qed.

Lemma bind_ret {A B} (a : A) (k : A -> M B) : bind (ret a) k = k a.
Proof. apply bind_lift_ok. Qed.

Ltac mcbn :=
  unfold lift, ret;
  cbn beta iota delta [events outcome fst snd round app].
Ltac mstep := mcbn; repeat (rewrite bind_ok; mcbn).

Lemma fdiv_nonzero x y :
  is_zero_float y = false -> fdiv x y = ([EvDiv x y], Ok (x / y)).
Proof. intros H. unfold fdiv. rewrite H. reflexivity. Qed.

Lemma fmod_small q : (abs q <? 6) = true -> fmod q 6 = q.
Proof. intros H. unfold fmod. change (abs 6) with 6. rewrite H. reflexivity. Qed.

Lemma float_mod_small q :
  (abs q <? 6) = true -> float_mod q 6 = ret (wrap6 q).
Proof.
  intros H. unfold float_mod, wrap6. rewrite (fmod_small q H).
  change (is_zero_float 6) with false. change (get_sign 6) with false.
  change (6 <? 0) with false. cbv iota.
  destruct (is_zero_float q); [reflexivity |].
  destruct (q <? 0); reflexivity.
Qed.

Lemma hsl_tail_checked r g b :
  check r g b = true ->
  let delta := max3 r g b - min3 r g b in
  let l := (max3 r g b + min3 r g b) / 2 in
  let den := 1 - abs (2 * l - 1) in
  exists h s l',
    outcome (hsl_tail r g b) = Ok (hsl_string h s l')
    /\ (0 <= h <= 360)%Z /\ (0 <= s <= 100)%Z /\ (0 <= l' <= 100)%Z
    /\ (if is_zero_float delta
        then h = 0%Z /\ s = 0%Z /\ divisors (events (hsl_tail r g b)) = [2]
        else is_zero_float den = false
             /\ divisors (events (hsl_tail r g b)) = [delta; 2; den]).
Proof.
  unfold check, hsl_tail. intros H.
  set (max_c := max3 r g b) in *. set (min_c := min3 r g b) in *.
  cbv zeta. set (delta := max_c - min_c) in *.
  apply andb_prop in H as [Hl H].
  destruct (round_percent _ Hl) as (l' & Hrl & Hl').
  rewrite (fdiv_nonzero (max_c + min_c) 2) by reflexivity.
  destruct (is_zero_float delta) eqn:Hd.
  - exists 0%Z, 0%Z, l'.
    rewrite bind_ret, bind_ok, bind_ret. cbn [round mul_int Z.mul].
    rewrite !bind_lift_ok. cbn [round].
    rewrite bind_lift_ok, Hrl, bind_lift_ok.
    cbn. repeat split; lia.
  - cbv zeta in H.
    set (l := (max_c + min_c) / 2) in *. set (den := 1 - abs (2 * l - 1)) in *.
    apply andb_prop in H as [H Hs]. apply andb_prop in H as [Hh Hden].
    apply negb_true_iff in Hden.
    destruct (round_percent _ Hs) as (s & Hrs & Hs').
    assert (Hhue : exists q h,
      (if max_c =? r
       then q <- fdiv (g - b) delta ;; m <- float_mod q 6 ;; ret (Float (60 * m))
       else if max_c =? g
            then q <- fdiv (b - r) delta ;; ret (Float (60 * (q + 2)))
            else q <- fdiv (r - g) delta ;; ret (Float (60 * (q + 4))))
      = ([EvDiv q delta], Ok (Float h)) /\ in_range h 360.5 = true).
    { destruct (max_c =? r); [| destruct (max_c =? g)].
      - apply andb_prop in Hh as [Hq Hh].
        exists (g - b), (60 * wrap6 ((g - b) / delta)).
        rewrite fdiv_nonzero, bind_ok, (float_mod_small _ Hq), bind_ret by assumption.
        split; [reflexivity | assumption].
      - exists (b - r), (60 * ((b - r) / delta + 2)).
        rewrite fdiv_nonzero, bind_ok by assumption.
        split; [reflexivity | assumption].
      - exists (r - g), (60 * ((r - g) / delta + 4)).
        rewrite fdiv_nonzero, bind_ok by assumption.
        split; [reflexivity | assumption]. }
    destruct Hhue as (q & hf & -> & Hhf).
    destruct (round_hue _ Hhf) as (h & Hrh & Hh').
    exists h, s, l'.
    mstep. fold l; fold den.
    rewrite (fdiv_nonzero delta den) by assumption. mstep.
    rewrite Hrh. mstep.
    change (mul_int (Float (delta / den)) 100) with (Ok (Float (delta / den * 100))).
    mstep. rewrite Hrs. mstep. rewrite Hrl. mstep.
    cbn. repeat split; try lia; assumption.
Qed.


(** *** Inputs of six hexadecimal digits *)

Lemma hex_digit_cases c :
  ascii_in c hex_digits = true ->
  In c (list_ascii_of_string hex_digits).
Proof.
  unfold ascii_in. rewrite existsb_exists.
  intros (x & Hin & Heq). apply Ascii.eqb_eq in Heq. subst. exact Hin.
Qed.

Lemma int16_hex_pair c1 c2 :
  ascii_in c1 hex_digits = true -> ascii_in c2 hex_digits = true ->
  exists z, byte z /\ int16 (String c1 (String c2 "")) = Ok z.
Proof.
  intros H1 H2. apply hex_digit_cases in H1. apply hex_digit_cases in H2.
  unfold byte.
  cbn in H1, H2.
  repeat (destruct H1 as [<- | H1]); try contradiction;
    repeat (destruct H2 as [<- | H2]); try contradiction;
    (eexists; split; [| vm_compute; reflexivity]; lia).
Qed.

Lemma parse_hex6 t :
  is_hex6 t = true ->
  exists r g b, byte r /\ byte g /\ byte b
    /\ int16 (slice t 0 2) = Ok r
    /\ int16 (slice t 2 4) = Ok g
    /\ int16 (slice t 4 6) = Ok b.
Proof.
  unfold is_hex6. intros H. apply andb_prop in H as [Hlen Hall].
  apply Nat.eqb_eq in Hlen.
  destruct t as [| c1 [| c2 [| c3 [| c4 [| c5 [| c6 [| c7 t]]]]]]];
    try discriminate Hlen.
  cbn [list_ascii_of_string forallb] in Hall.
  repeat (apply andb_prop in Hall as [? Hall]).
  destruct (int16_hex_pair c1 c2) as (r & Hr & Er); try assumption.
  destruct (int16_hex_pair c3 c4) as (g & Hg & Eg); try assumption.
  destruct (int16_hex_pair c5 c6) as (b & Hb & Eb); try assumption.
  exists r, g, b. cbn [slice substring Nat.sub].
  repeat (split; [assumption |]). assumption.
Qed.

Lemma all_below_spec fuel : forall z p,
  all_below fuel z p = true ->
  forall x, (z <= x < z + Z.of_nat fuel)%Z -> p x = true.
Proof.
  induction fuel as [| k IH]; intros z p H x Hx; [lia |].
  cbn [all_below] in H. apply andb_prop in H as [Hz Hrest].
  destruct (Z.eq_dec x z) as [-> | Hne]; [exact Hz |].
  apply (IH (z + 1)%Z p Hrest). lia.
Qed.

Lemma float_of_byte z :
  byte z ->
  float_of_int z = Ok (SF2Prim (binary_normalize prec emax z 0 false)).
Proof.
  intros Hz.
  assert (H : all_below 256 0
                (fun z => match binary_normalize prec emax z 0 false with
                          | S754_infinity _ => false
                          | _ => true
                          end)
              = true) by (vm_compute; reflexivity).
  pose proof (all_below_spec _ _ _ H z ltac:(unfold byte in Hz; lia)) as Hf.
  cbv beta in Hf. unfold float_of_int.
  destruct (binary_normalize prec emax z 0 false);
    [reflexivity | discriminate Hf | reflexivity | reflexivity].
Qed.

(** On channels that parse, the converter is its three normalising divisions
    followed by [hsl_tail]. *)
Lemma hex_to_hsl_parsed s r g b fr fg fb :
  int16 (slice (lstrip s "#") 0 2) = Ok r ->
  int16 (slice (lstrip s "#") 2 4) = Ok g ->
  int16 (slice (lstrip s "#") 4 6) = Ok b ->
  float_of_int r = Ok fr -> float_of_int g = Ok fg -> float_of_int b = Ok fb ->
  HexToHsl.hex_to_hsl s
  = prepend [EvDiv fr 255; EvDiv fg 255; EvDiv fb 255]
      (hsl_tail (fr / 255) (fg / 255) (fb / 255)).
Proof.
  intros Hr Hg Hb Fr Fg Fb. unfold HexToHsl.hex_to_hsl. cbv zeta.
  rewrite Hr, Hg, Hb, !bind_lift_ok.
  unfold int_div_float. rewrite Fr, Fg, Fb, !bind_lift_ok.
  rewrite !(fdiv_nonzero _ 255) by reflexivity.
  rewrite !bind_ok. unfold prepend. cbn [events outcome fst snd app].
  reflexivity.
Qed.


(** *** Every channel triple, by evaluation *)

Lemma all_triples_checked : all_triples channel_floats = true.
Proof. vm_compute. reflexivity. Qed.

Lemma byte_in_values z : byte z -> In z byte_values.
Proof.
  intros Hz. unfold byte in Hz. unfold byte_values.
  replace z with (Z.of_nat (Z.to_nat z)) by lia.
  apply in_map, in_seq. lia.
Qed.

Lemma all_triples_spec cs :
  all_triples cs = true ->
  forall r g b, In r cs -> In g cs -> In b cs -> check r g b = true.
Proof.
  unfold all_triples. intros H r g b Hr Hg Hb.
  rewrite forallb_forall in H. specialize (H r Hr).
  rewrite forallb_forall in H. specialize (H g Hg).
  rewrite forallb_forall in H. exact (H b Hb).
Qed.

Lemma normalised_in z : byte z -> In (normalised z) channel_floats.
Proof. intros Hz. apply in_map, byte_in_values, Hz. Qed.

Lemma check_bytes r g b :
  byte r -> byte g -> byte b ->
  check (normalised r) (normalised g) (normalised b) = true.
Proof.
  intros Hr Hg Hb.
  apply (all_triples_spec channel_floats all_triples_checked);
    apply normalised_in; assumption.
Qed.

Lemma gray_checked : forallb gray_check channel_floats = true.
Proof. vm_compute. reflexivity. Qed.

Lemma gray_delta_zero c :
  byte c ->
  is_zero_float (max3 (normalised c) (normalised c) (normalised c)
                 - min3 (normalised c) (normalised c) (normalised c)) = true.
Proof.
  intros Hc.
  exact (proj1 (forallb_forall gray_check channel_floats) gray_checked
           (normalised c) (normalised_in c Hc)).
Qed.

(** The shape of a valid run: the channels that were parsed, the six or four
    divisions performed, and the rounded result. *)
Lemma hex_to_hsl_valid s :
  hex6_input s ->
  exists R G B h sat l',
    byte R /\ byte G /\ byte B
    /\ int16 (slice (lstrip s "#") 0 2) = Ok R
    /\ int16 (slice (lstrip s "#") 2 4) = Ok G
    /\ int16 (slice (lstrip s "#") 4 6) = Ok B
    /\ outcome (HexToHsl.hex_to_hsl s) = Ok (hsl_string h sat l')
    /\ (0 <= h <= 360)%Z /\ (0 <= sat <= 100)%Z /\ (0 <= l' <= 100)%Z
    /\ let r := normalised R in
       let g := normalised G in
       let b := normalised B in
       let delta := max3 r g b - min3 r g b in
       let l := (max3 r g b + min3 r g b) / 2 in
       let den := 1 - abs (2 * l - 1) in
       if is_zero_float delta
       then h = 0%Z /\ sat = 0%Z
            /\ divisors (events (HexToHsl.hex_to_hsl s)) = [255; 255; 255; 2]
       else is_zero_float den = false
            /\ divisors (events (HexToHsl.hex_to_hsl s))
               = [255; 255; 255; delta; 2; den].
Proof.
  intros Hs. destruct (parse_hex6 _ Hs) as (R & G & B & HR & HG & HB & ER & EG & EB).
  pose proof (float_of_byte R HR) as Fr.
  pose proof (float_of_byte G HG) as Fg.
  pose proof (float_of_byte B HB) as Fb.
  pose proof (check_bytes R G B HR HG HB) as Hc.
  apply hsl_tail_checked in Hc.
  destruct Hc as (h & sat & l' & Hout & Hh & Hsat & Hl & Hdiv).
  exists R, G, B, h, sat, l'.
  rewrite (hex_to_hsl_parsed s R G B _ _ _ ER EG EB Fr Fg Fb).
  fold (normalised R). fold (normalised G). fold (normalised B).
  unfold prepend.
  cbn [outcome events fst snd].
  repeat (split; [assumption |]).
  cbv zeta.
  destruct (is_zero_float _).
  - destruct Hdiv as (-> & -> & Hd). repeat split.
    unfold divisors in *. rewrite flat_map_app, Hd. reflexivity.
  - destruct Hdiv as (Hden & Hd). split; [assumption |].
    unfold divisors in *. rewrite flat_map_app, Hd. reflexivity.
Qed.


(** *** The claims *)

Lemma append_assoc (a b c : string) : ((a ++ b) ++ c = a ++ (b ++ c))%string.
Proof. induction a as [| x a IH]; cbn; [reflexivity | now rewrite IH]. Qed.

Lemma prefix_append (a b : string) : prefix a (a ++ b) = true.
Proof.
  induction a as [| x a IH]; cbn.
  - destruct b; reflexivity.
  - destruct (ascii_dec x x) as [_ | Hne]; [exact IH | now elim Hne].
Qed.

Lemma hsl_string_prefix h s l :
  prefix (str_of_int h ++ " ") (hsl_string h s l) = true.
Proof.
  unfold hsl_string. rewrite <- append_assoc. apply prefix_append.
Qed.

(** C1 (as stated, refuted): the converter does not return "223 42% 40%" on
    "#3b5894". *)
Lemma hex_to_hsl_primary_not_223 :
  outcome (HexToHsl.hex_to_hsl "#3b5894") <> Ok "223 42% 40%"%string.
Proof. vm_compute. discriminate. Qed.

(** C1 (amended): on "#3b5894" the converter returns "220 43% 41%". *)
Theorem hex_to_hsl_primary :
  outcome (HexToHsl.hex_to_hsl "#3b5894") = Ok "220 43% 41%"%string.
Proof. vm_compute. reflexivity. Qed.

(** C2 (as stated, refuted): "#ff0001" is a valid input whose hue rounds to
    360, so the result is no "H S% L%" with H in [0, 360). *)
Lemma hue_360_on_ff0001 :
  hex6_input "#ff0001"
  /\ ~ exists h s l,
        (0 <= h < 360)%Z /\ (0 <= s <= 100)%Z /\ (0 <= l <= 100)%Z
        /\ outcome (HexToHsl.hex_to_hsl "#ff0001") = Ok (hsl_string h s l).
Proof.
  split; [reflexivity |].
  intros (h & s & l & Hh & _ & _ & Hout).
  assert (E : outcome (HexToHsl.hex_to_hsl "#ff0001") = Ok "360 100% 50%"%string)
    by (vm_compute; reflexivity).
  rewrite E in Hout. injection Hout as Hout.
  pose proof (hsl_string_prefix h s l) as Hp. rewrite <- Hout in Hp.
  assert (H : all_below 360 0
                (fun h => negb (prefix (str_of_int h ++ " ") "360 100% 50%"))
              = true) by (vm_compute; reflexivity).
  pose proof (all_below_spec _ _ _ H h ltac:(lia)) as Hn.
  cbv beta in Hn. rewrite Hp in Hn. discriminate Hn.
Qed.

(** C2 (amended): on every input of exactly six hexadecimal digits,
    optionally preceded by '#', the converter returns "H S% L%" with integers
    H in [0, 360], S in [0, 100] and L in [0, 100]. *)
Theorem hex_to_hsl_ranges s :
  hex6_input s ->
  exists h sat l,
    outcome (HexToHsl.hex_to_hsl s) = Ok (hsl_string h sat l)
    /\ (0 <= h <= 360)%Z /\ (0 <= sat <= 100)%Z /\ (0 <= l <= 100)%Z.
Proof.
  intros Hs.
  destruct (hex_to_hsl_valid s Hs)
    as (R & G & B & h & sat & l & _ & _ & _ & _ & _ & _ & Hout & Hh & Hsat & Hl & _).
  exists h, sat, l. repeat split; try assumption; lia.
Qed.

Lemma hex_to_hsl_ranges_witness :
  exists h sat l,
    outcome (HexToHsl.hex_to_hsl "#4a6bb0") = Ok (hsl_string h sat l)
    /\ (0 <= h <= 360)%Z /\ (0 <= sat <= 100)%Z /\ (0 <= l <= 100)%Z.
Proof. apply (hex_to_hsl_ranges "#4a6bb0"). reflexivity. Defined.


Lemma int16_raises s e : int16 s = Raise e -> e = ValueError.
Proof.
  unfold int16.
  destruct (skip_spaces s) as [| c0 t0] eqn:E0; [intros [= <-]; reflexivity |].
  repeat match goal with
         | |- context [match ?x with _ => _ end] => destruct x
         | |- context [if ?x then _ else _] => destruct x
         end;
    intros H; try discriminate H; injection H as <-; reflexivity.
Qed.

Lemma bind_lift_raise {A B} e (k : A -> M B) :
  bind (lift (Raise e)) k = ([], Raise e).
Proof. reflexivity. Qed.

(** The converter reads its input only through the three slices. *)
Lemma hex_to_hsl_slices s s' :
  slice (lstrip s "#") 0 2 = slice (lstrip s' "#") 0 2 ->
  slice (lstrip s "#") 2 4 = slice (lstrip s' "#") 2 4 ->
  slice (lstrip s "#") 4 6 = slice (lstrip s' "#") 4 6 ->
  HexToHsl.hex_to_hsl s = HexToHsl.hex_to_hsl s'.
Proof.
  intros H0 H2 H4. unfold HexToHsl.hex_to_hsl. cbv zeta.
  rewrite H0, H2, H4. reflexivity.
Qed.

Lemma hex_to_hsl_bad_slice s :
  int16 (slice (lstrip s "#") 0 2) = Raise ValueError
  \/ int16 (slice (lstrip s "#") 2 4) = Raise ValueError
  \/ int16 (slice (lstrip s "#") 4 6) = Raise ValueError ->
  outcome (HexToHsl.hex_to_hsl s) = Raise ValueError.
Proof.
  intros H. unfold HexToHsl.hex_to_hsl. cbv zeta.
  destruct (int16 (slice (lstrip s "#") 0 2)) as [r | e] eqn:E0.
  2: { apply int16_raises in E0 as ->. reflexivity. }
  rewrite bind_lift_ok.
  destruct (int16 (slice (lstrip s "#") 2 4)) as [g | e] eqn:E2.
  2: { apply int16_raises in E2 as ->. reflexivity. }
  rewrite bind_lift_ok.
  destruct (int16 (slice (lstrip s "#") 4 6)) as [b | e] eqn:E4.
  2: { apply int16_raises in E4 as ->. reflexivity. }
  destruct H as [H | [H | H]]; discriminate H.
Qed.

Lemma lstrip_append s u :
  lstrip s "#" <> ""%string ->
  lstrip (s ++ u) "#" = (lstrip s "#" ++ u)%string.
Proof.
  induction s as [| c s IH]; cbn [lstrip append]; intros H.
  - now elim H.
  - destruct (ascii_in c "#"); [apply IH, H | reflexivity].
Qed.

(** C3 (as stated, refuted): an 8-digit input with alpha is not six digits
    after stripping, yet it raises nothing: the digits after the sixth are
    never read. *)
Lemma eight_digits_accepted :
  is_hex6 (lstrip "#3b5894ff" "#") = false
  /\ String.length (lstrip "#3b5894ff" "#") = 8%nat
  /\ outcome (HexToHsl.hex_to_hsl "#3b5894ff") = Ok "220 43% 41%"%string.
Proof. vm_compute. repeat split. Qed.

(** C3 (amended): the converter raises nothing on an input that is exactly six
    hexadecimal digits after stripping '#', and it ignores whatever follows
    them; it raises a parse error whenever one of the slices [0:2], [2:4],
    [4:6] of the stripped input is not a base-16 literal, in particular
    whenever fewer than 5 characters remain after stripping. *)
Theorem hex_to_hsl_parse_errors s :
  (hex6_input s ->
     (exists out, outcome (HexToHsl.hex_to_hsl s) = Ok out)
     /\ forall u, HexToHsl.hex_to_hsl (s ++ u) = HexToHsl.hex_to_hsl s)
  /\ (int16 (slice (lstrip s "#") 0 2) = Raise ValueError
      \/ int16 (slice (lstrip s "#") 2 4) = Raise ValueError
      \/ int16 (slice (lstrip s "#") 4 6) = Raise ValueError ->
      outcome (HexToHsl.hex_to_hsl s) = Raise ValueError)
  /\ ((String.length (lstrip s "#") < 5)%nat ->
      outcome (HexToHsl.hex_to_hsl s) = Raise ValueError).
Proof.
  split; [| split].
  - intros Hs. split.
    + destruct (hex_to_hsl_valid s Hs)
        as (R & G & B & h & sat & l & _ & _ & _ & _ & _ & _ & Hout & _).
      eexists. exact Hout.
    + intros u. unfold hex6_input, is_hex6 in Hs.
      apply andb_prop in Hs as [Hlen _]. apply Nat.eqb_eq in Hlen.
      assert (Hne : lstrip s "#" <> ""%string)
        by (intros E; rewrite E in Hlen; discriminate Hlen).
      apply hex_to_hsl_slices; rewrite (lstrip_append s u Hne);
        destruct (lstrip s "#") as [| c1 [| c2 [| c3 [| c4 [| c5 [| c6 [| c7 t]]]]]]];
        try discriminate Hlen; destruct u; reflexivity.
  - apply hex_to_hsl_bad_slice.
  - intros Hlen. apply hex_to_hsl_bad_slice. right. right.
    destruct (lstrip s "#") as [| c1 [| c2 [| c3 [| c4 [| c5 t]]]]];
      cbn in Hlen; try lia; reflexivity.
Qed.

Lemma hex_to_hsl_parse_errors_witness :
  ((exists out, outcome (HexToHsl.hex_to_hsl "#6d82ad") = Ok out)
   /\ forall u, HexToHsl.hex_to_hsl ("#6d82ad" ++ u) = HexToHsl.hex_to_hsl "#6d82ad")
  /\ outcome (HexToHsl.hex_to_hsl "#6d82zz") = Raise ValueError
  /\ outcome (HexToHsl.hex_to_hsl "#6d8") = Raise ValueError.
Proof.
  split; [| split].
  - apply (proj1 (hex_to_hsl_parse_errors "#6d82ad")). reflexivity.
  - apply (proj1 (proj2 (hex_to_hsl_parse_errors "#6d82zz"))).
    right. right. reflexivity.
  - apply (proj2 (proj2 (hex_to_hsl_parse_errors "#6d8"))). cbn. lia.
Defined.

(** C6: a gray input (R = G = B) gives hue 0 and saturation 0 whatever its
    lightness; "#ffffff" gives "0 0% 100%" and "#000000" gives "0 0% 0%". *)
Theorem hex_to_hsl_gray :
  (forall s c,
     hex6_input s ->
     int16 (slice (lstrip s "#") 0 2) = Ok c ->
     int16 (slice (lstrip s "#") 2 4) = Ok c ->
     int16 (slice (lstrip s "#") 4 6) = Ok c ->
     exists l, (0 <= l <= 100)%Z
       /\ outcome (HexToHsl.hex_to_hsl s) = Ok (hsl_string 0 0 l))
  /\ outcome (HexToHsl.hex_to_hsl "#ffffff") = Ok "0 0% 100%"%string
  /\ outcome (HexToHsl.hex_to_hsl "#000000") = Ok "0 0% 0%"%string.
Proof.
  split; [| split; vm_compute; reflexivity].
  intros s c Hs Er Eg Eb.
  destruct (hex_to_hsl_valid s Hs)
    as (R & G & B & h & sat & l & HR & _ & _ & ER & EG & EB & Hout & _ & _ & Hl & Hd).
  rewrite Er in ER. rewrite Eg in EG. rewrite Eb in EB.
  injection ER as <-. injection EG as <-. injection EB as <-.
  cbv zeta in Hd. rewrite (gray_delta_zero c HR) in Hd.
  destruct Hd as (-> & -> & _).
  exists l. split; assumption.
Qed.

Lemma hex_to_hsl_gray_witness :
  exists l, (0 <= l <= 100)%Z
    /\ outcome (HexToHsl.hex_to_hsl "#808080") = Ok (hsl_string 0 0 l).
Proof.
  apply (proj1 hex_to_hsl_gray "#808080" 128%Z); reflexivity.
Defined.

Lemma hex_to_hsl_divides_safely s :
  hex6_input s -> divides_safely HexToHsl.hex_to_hsl s.
Proof.
  intros Hs.
  destruct (hex_to_hsl_valid s Hs)
    as (R & G & B & h & sat & l & _ & _ & _ & ER & EG & EB & Hout & _ & _ & _ & Hd).
  exists R, G, B. repeat (split; [assumption |]).
  cbv zeta in *. unfold no_zero_divisor.
  destruct (is_zero_float (max3 _ _ _ - min3 _ _ _)) eqn:Hdelta.
  - destruct Hd as (_ & _ & ->). split; [reflexivity |].
    split; [discriminate |]. split; [| eexists; exact Hout].
    repeat constructor.
  - destruct Hd as (Hden & ->). split; [reflexivity |].
    split; [intros _; exact Hden |]. split; [| eexists; exact Hout].
    repeat constructor; assumption.
Qed.

(** C9: on every input of exactly six hexadecimal digits after stripping '#',
    neither copy of the converter divides by zero: the divisions by delta
    happen only when delta is nonzero, and then the saturation denominator
    1 - |2L - 1| is nonzero too. *)
Theorem no_division_by_zero s :
  hex6_input s ->
  divides_safely HexToHsl.hex_to_hsl s
  /\ divides_safely UpdateColor.hex_to_hsl_hex s.
Proof.
  intros Hs. pose proof (hex_to_hsl_divides_safely s Hs) as H.
  split; [exact H |].
  unfold divides_safely in *.
  destruct H as (R & G & B & H). exists R, G, B.
  change (UpdateColor.hex_to_hsl_hex s) with (HexToHsl.hex_to_hsl s). exact H.
Qed.

(** The hypothesis matters: signs are base-16 literals too, and on "+1-1+0"
    the channels are 1, -1, 0, so that delta is nonzero while the lightness is
    0 and the saturation denominator vanishes. *)
Remark signed_channels_divide_by_zero :
  outcome (HexToHsl.hex_to_hsl "+1-1+0") = Raise ZeroDivisionError.
Proof. vm_compute. reflexivity. Qed.

Lemma no_division_by_zero_witness :
  divides_safely HexToHsl.hex_to_hsl "#3b5a95"
  /\ divides_safely UpdateColor.hex_to_hsl_hex "#3b5a95".
Proof. apply (no_division_by_zero "#3b5a95"). reflexivity. Defined.

(** C10: the converter of update_color.py and the one of hex_to_hsl.py
    compute the same result, with the same effects, on every input string. *)
Theorem converters_equal s :
  UpdateColor.hex_to_hsl_hex s = HexToHsl.hex_to_hsl s.
Proof.
  unfold UpdateColor.hex_to_hsl_hex, HexToHsl.hex_to_hsl.
  reflexivity.
Qed.

End HslFacts.

(** ** The colour sampler *)

Module SamplerFacts.

Lemma format_02x_byte z : byte z -> format_02x z = hex2 z.
Proof.
  intros Hz.
  assert (H : all_below 256 0
                (fun z => String.eqb (format_02x z) (hex2 z)) = true)
    by (vm_compute; reflexivity).
  apply String.eqb_eq.
  apply (HslFacts.all_below_spec _ _ _ H z). unfold byte in Hz. lia.
Qed.

(** C8: a pixel of 3 or 4 channels in [0, 255] becomes the 7-character string
    '#rrggbb' of its first three channels in two-digit lowercase hexadecimal;
    a fourth channel is dropped. *)
Theorem rgb_to_hex_format rgb :
  (List.length rgb = 3 \/ List.length rgb = 4)%nat ->
  Forall byte rgb ->
  exists r g b rest,
    rgb = r :: g :: b :: rest
    /\ ExtractLogoColor.rgb_to_hex rgb
       = ret ("#" ++ hex2 r ++ hex2 g ++ hex2 b)%string
    /\ String.length ("#" ++ hex2 r ++ hex2 g ++ hex2 b) = 7%nat.
Proof.
  intros Hlen Hall.
  destruct rgb as [| r [| g [| b [| a [| x rest]]]]];
    cbn in Hlen; try (destruct Hlen; discriminate).
  - exists r, g, b, []. inversion Hall as [| ? ? Hr H1]; subst.
    inversion H1 as [| ? ? Hg H2]; subst. inversion H2 as [| ? ? Hb _]; subst.
    unfold ExtractLogoColor.rgb_to_hex. cbn [List.length Nat.eqb].
    rewrite !format_02x_byte by assumption. repeat split.
  - exists r, g, b, [a]. inversion Hall as [| ? ? Hr H1]; subst.
    inversion H1 as [| ? ? Hg H2]; subst. inversion H2 as [| ? ? Hb _]; subst.
    unfold ExtractLogoColor.rgb_to_hex. cbn [List.length Nat.eqb firstn].
    rewrite !format_02x_byte by assumption. repeat split.
Qed.

Lemma rgb_to_hex_format_witness :
  exists r g b rest,
    [59; 88; 148; 255] = r :: g :: b :: rest
    /\ ExtractLogoColor.rgb_to_hex [59; 88; 148; 255]
       = ret ("#" ++ hex2 r ++ hex2 g ++ hex2 b)%string
    /\ String.length ("#" ++ hex2 r ++ hex2 g ++ hex2 b) = 7%nat.
Proof.
  apply (rgb_to_hex_format [59; 88; 148; 255]).
  - right. reflexivity.
  - repeat constructor; unfold byte; lia.
Defined.

Lemma getpixel_inside img x y :
  0 <= x -> 0 <= y ->
  getpixel img (x, y)
  = if (width img <=? x) || (height img <=? y) then raise IndexError
    else ret (pixels img x y).
Proof.
  intros Hx Hy. unfold getpixel.
  assert (Ex : (x <? 0) = false) by (apply Z.ltb_ge; lia).
  assert (Ey : (y <? 0) = false) by (apply Z.ltb_ge; lia).
  rewrite Ex, Ey. cbv beta iota zeta. rewrite Ex, Ey.
  cbn [orb]. rewrite orb_false_r. reflexivity.
Qed.

(** C5 (as stated, refuted): on a loaded 50x50 image the top-left read at
    (100, 100) is outside the image and the run stops with an IndexError; no
    smaller inset is taken. *)
Lemma top_left_outside_small_image :
  loaded (flat_image 50 50)
  /\ outcome (getpixel (flat_image 50 50) (100, 100)) = Raise IndexError
  /\ forall lib,
       outcome (ExtractLogoColor.script lib (logo_file (flat_image 50 50)))
       = Raise IndexError.
Proof.
  split; [unfold loaded; cbn; lia |]. split; [reflexivity |].
  intros lib. reflexivity.
Qed.

(** C5 (amended): the sampler always reads the top-left sample at the fixed
    position (100, 100).  When the image is more than 100 pixels wide and
    high the read is inside the image and returns the pixel there, and that
    pixel is what the run shows on its "Top-left" line, right after the
    average; on any smaller image the read fails with an IndexError, which
    ends the run before anything is printed: no smaller inset is taken. *)
Theorem top_left_fixed_inset lib img :
  loaded img ->
  let run := ExtractLogoColor.script lib (logo_file img) in
  (100 < width img /\ 100 < height img ->
     outcome (getpixel img (100, 100)) = Ok (pixels img 100 100)
     /\ exists rest,
          events run
          = EvPrint ("Average color: rgb"
                     ++ tuple_repr (resample lib img (1, 1) 0 0))
            :: EvPrint ("Top-left (darker): rgb"
                        ++ tuple_repr (pixels img 100 100))
            :: rest)
  /\ (~ (100 < width img /\ 100 < height img) ->
      outcome (getpixel img (100, 100)) = Raise IndexError
      /\ run = ([], Raise IndexError)).
Proof.
  intros _. cbv zeta.
  assert (Es : ExtractLogoColor.script lib (logo_file img)
               = (top_left <- getpixel img (100, 100) ;;
                  bottom_right <- getpixel img (width img - 100, height img - 100) ;;
                  center <- getpixel img (width img / 2, height img / 2) ;;
                  print ("Average color: rgb"
                         ++ tuple_repr (resample lib img (1, 1) 0 0)) ;;;
                  print ("Top-left (darker): rgb" ++ tuple_repr top_left) ;;;
                  print ("Bottom-right (lighter): rgb" ++ tuple_repr bottom_right) ;;;
                  print ("Center: rgb" ++ tuple_repr center) ;;;
                  print "" ;;;
                  h <- ExtractLogoColor.rgb_to_hex (resample lib img (1, 1) 0 0) ;;
                  print ("Average: " ++ h) ;;;
                  h <- ExtractLogoColor.rgb_to_hex top_left ;;
                  print ("Top-left (recommended primary): " ++ h) ;;;
                  h <- ExtractLogoColor.rgb_to_hex bottom_right ;;
                  print ("Bottom-right: " ++ h) ;;;
                  h <- ExtractLogoColor.rgb_to_hex center ;;
                  print ("Center: " ++ h))%py).
  { unfold ExtractLogoColor.script.
    change (logo_file img "logo.png") with (Some img). unfold open_image.
    rewrite HslFacts.bind_ret.
    change (getpixel (resize lib img (1, 1)) (0, 0))
      with (ret (resample lib img (1, 1) 0 0)).
    rewrite HslFacts.bind_ret. reflexivity. }
  rewrite Es. clear Es.
  rewrite (getpixel_inside img 100 100) by lia.
  split.
  - intros [Hw Hh].
    assert (Hc : 0 <= width img / 2 < width img)
      by (split; [apply Z.div_pos; lia | apply Z.div_lt_upper_bound; lia]).
    assert (Hc' : 0 <= height img / 2 < height img)
      by (split; [apply Z.div_pos; lia | apply Z.div_lt_upper_bound; lia]).
    rewrite !getpixel_inside by lia.
    rewrite !(proj2 (Z.leb_gt _ _)) by lia. cbn [orb].
    split; [reflexivity |].
    rewrite !HslFacts.bind_ret. unfold print, emit.
    rewrite HslFacts.bind_ok, HslFacts.bind_ok.
    cbn [events outcome fst snd app]. eexists. reflexivity.
  - intros Hsmall.
    assert (E : ((width img <=? 100) || (height img <=? 100)) = true).
    { destruct (Z.leb_spec (width img) 100); [reflexivity |].
      destruct (Z.leb_spec (height img) 100); [reflexivity | lia]. }
    rewrite E. split; reflexivity.
Qed.

Lemma top_left_fixed_inset_witness :
  (outcome (getpixel (ramp_image 512 300) (100, 100)) = Ok [100; 100; 0]
   /\ exists rest,
        events (ExtractLogoColor.script nearest (logo_file (ramp_image 512 300)))
        = EvPrint "Average color: rgb(0, 0, 0)"
          :: EvPrint "Top-left (darker): rgb(100, 100, 0)"
          :: rest)
  /\ (outcome (getpixel (ramp_image 100 200) (100, 100)) = Raise IndexError
      /\ ExtractLogoColor.script nearest (logo_file (ramp_image 100 200))
         = ([], Raise IndexError)).
Proof.
  split.
  - apply (top_left_fixed_inset nearest (ramp_image 512 300)).
    + unfold loaded; cbn; lia.
    + cbn; lia.
  - apply (top_left_fixed_inset nearest (ramp_image 100 200)).
    + unfold loaded; cbn; lia.
    + cbn; lia.
Defined.

End SamplerFacts.

(** ** The asset and favicon generators *)

Module AssetFacts.

Lemma generate_logo_written lib img :
  outcome (GenerateLogo.script lib (logo_file img)) = Ok tt
  /\ written (events (GenerateLogo.script lib (logo_file img)))
     = (png_outputs ++ [ico_output (ico_frames lib img GenerateLogo.ico_sizes)])%list.
Proof. split; reflexivity. Qed.

Lemma ico_frames_large lib img :
  thumbnail_square lib -> width img = height img -> 64 <= width img ->
  ico_frames lib img GenerateLogo.ico_sizes = [(16, 16); (32, 32); (64, 64)].
Proof.
  intros Hsq Hwh Hw. unfold ico_frames, GenerateLogo.ico_sizes.
  cbn [filter]. rewrite <- Hwh.
  change (256 <? 16) with false. change (256 <? 32) with false.
  change (256 <? 64) with false.
  rewrite !(proj2 (Z.ltb_ge _ _)) by lia.
  cbn [orb negb map]. rewrite !Hsq by lia. reflexivity.
Qed.

Lemma ico_frames_20 lib :
  thumbnail_square lib ->
  ico_frames lib (flat_image 20 20) GenerateLogo.ico_sizes
  = [(16, 16)].
Proof.
  intros Hsq. unfold ico_frames, GenerateLogo.ico_sizes.
  cbn. rewrite Hsq by lia. reflexivity.
Qed.

(** C7 (as stated, refuted): from a loaded 20x20 source the four PNG files
    are produced, but the ICO bundle holds the 16x16 frame only: the encoder
    ignores requested sizes larger than the source. *)
Lemma small_source_drops_frames :
  loaded (flat_image 20 20)
  /\ thumbnail_square nearest
  /\ written (events (GenerateLogo.script nearest (logo_file (flat_image 20 20))))
     = (png_outputs ++ [ico_output [(16, 16)]])%list
  /\ ico_output [(16, 16)] <> ico_output [(16, 16); (32, 32); (64, 64)]
  /\ forall lib, thumbnail_square lib ->
       written (events (GenerateLogo.script lib (logo_file (flat_image 20 20))))
       = (png_outputs ++ [ico_output [(16, 16)]])%list.
Proof.
  split; [unfold loaded; cbn; lia |].
  split; [intros n s _; reflexivity |].
  split; [reflexivity |]. split; [discriminate |].
  intros lib Hsq.
  rewrite (proj2 (generate_logo_written lib _)), (ico_frames_20 lib Hsq).
  reflexivity.
Qed.

(** C7 (amended): on a decodable square source of side at least 64 the run
    writes exactly the four PNG files logo-{32,64,128,256}.png, each of the
    pixel size declared in its size-table entry, then one ICO bundle whose
    frames are exactly 16x16, 32x32 and 64x64, and it completes. *)
Theorem generate_logo_outputs lib img :
  thumbnail_square lib -> width img = height img -> 64 <= width img ->
  outcome (GenerateLogo.script lib (logo_file img)) = Ok tt
  /\ written (events (GenerateLogo.script lib (logo_file img)))
     = (png_outputs ++ [ico_output [(16, 16); (32, 32); (64, 64)]])%list
  /\ png_outputs
     = map (fun '(name, (w, h)) =>
              (("public/logo/logo-" ++ name ++ ".png")%string, Png w h))
           GenerateLogo.sizes.
Proof.
  intros Hsq Hwh Hw.
  destruct (generate_logo_written lib img) as [Hout Hfiles].
  split; [exact Hout |]. split; [| reflexivity].
  rewrite Hfiles, (ico_frames_large lib img Hsq Hwh Hw). reflexivity.
Qed.

Lemma nearest_square : thumbnail_square nearest.
Proof. intros n s _. reflexivity. Defined.

Lemma generate_logo_outputs_witness :
  outcome (GenerateLogo.script nearest
             (logo_file (flat_image 512 512))) = Ok tt
  /\ written (events (GenerateLogo.script nearest
                        (logo_file (flat_image 512 512))))
     = (png_outputs ++ [ico_output [(16, 16); (32, 32); (64, 64)]])%list
  /\ png_outputs
     = map (fun '(name, (w, h)) =>
              (("public/logo/logo-" ++ name ++ ".png")%string, Png w h))
           GenerateLogo.sizes.
Proof.
  apply (generate_logo_outputs nearest
           (flat_image 512 512)).
  - exact nearest_square.
  - reflexivity.
  - cbn. lia.
Defined.

(** C4 (the code at the failing input): with the imaging library installed,
    [main] writes the SVG and the PNG and then stops with a NameError at
    [io.BytesIO], before any ICO is written; without the library it writes
    the SVG only and completes. *)
Theorem favicon_main_runs svg drawing lib :
  GenerateFavicon.main svg drawing lib true
  = ([ EvMkdir "public";
       EvWrite "public/favicon.svg" (Text svg);
       EvPrint "✓ Generated SVG favicon: public/favicon.svg";
       EvWrite "public/favicon-64x64.png" (Png 64 64);
       EvPrint "✓ Generated PNG favicon: public/favicon-64x64.png" ],
     Raise NameError)
  /\ outcome (GenerateFavicon.main svg drawing lib false) = Ok tt
  /\ written (events (GenerateFavicon.main svg drawing lib false))
     = [("public/favicon.svg", Text svg)].
Proof. repeat split. Qed.

End AssetFacts.

(** ** Further properties of the converter *)

Module ConverterFacts.

Import HslFacts.

Lemma all_pairs_spec {A} (p : A -> A -> bool) xs :
  all_pairs p xs = true -> forall a b, In a xs -> In b xs -> p a b = true.
Proof.
  unfold all_pairs. intros H a b Ha Hb.
  rewrite forallb_forall in H. specialize (H a Ha).
  rewrite forallb_forall in H. exact (H b Hb).
Qed.

Lemma byte_in_table z : byte z -> In (z, normalised z) byte_table.
Proof.
  intros Hz. unfold byte_table.
  apply (in_map (fun z => (z, normalised z))), byte_in_values, Hz.
Qed.

Lemma order_pairs_checked : all_pairs order_check byte_table = true.
Proof. vm_compute. reflexivity. Qed.

Lemma rne_div_exact m d : 0 < d -> rne_div (m * d) d = m.
Proof.
  intros Hd. unfold rne_div. rewrite Z.div_mul, Z.mod_mul by lia.
  destruct (Z.compare_spec (2 * 0) d); lia.
Qed.

Lemma rne_div_scale m d c :
  0 < d -> 0 < c -> rne_div (m * c) (d * c) = rne_div m d.
Proof.
  intros Hd Hc. unfold rne_div.
  rewrite Z.div_mul_cancel_r, Z.mul_mod_distr_r by lia.
  destruct (Z.compare_spec (2 * (m mod d)) d),
    (Z.compare_spec (2 * (m mod d * c)) (d * c)); try reflexivity; nia.
Qed.

Lemma rne_div_mono m1 m2 d :
  0 < d -> m1 <= m2 -> rne_div m1 d <= rne_div m2 d.
Proof.
  intros Hd Hm. unfold rne_div.
  pose proof (Z.div_mod m1 d ltac:(lia)) as E1.
  pose proof (Z.div_mod m2 d ltac:(lia)) as E2.
  pose proof (Z.mod_pos_bound m1 d Hd) as B1.
  pose proof (Z.mod_pos_bound m2 d Hd) as B2.
  set (q1 := m1 / d) in *. set (r1 := m1 mod d) in *.
  set (q2 := m2 / d) in *. set (r2 := m2 mod d) in *.
  assert (Hq : q1 <= q2) by nia.
  destruct (Z.eq_dec q1 q2) as [Eq | Ne].
  - assert (r1 <= r2) by nia. rewrite <- Eq.
    destruct (Z.compare_spec (2 * r1) d), (Z.compare_spec (2 * r2) d);
      destruct (Z.even q1); lia.
  - assert (q1 + 1 <= q2) by lia.
    destruct (Z.compare_spec (2 * r1) d), (Z.compare_spec (2 * r2) d);
      destruct (Z.even q1), (Z.even q2); lia.
Qed.

(** The rounding of [m * 2^e], read at a lower exponent [e0]. *)
Lemma round_half_even_at m e e0 :
  e0 < 0 -> e0 <= e ->
  round_half_even m e = rne_div (Zpos m * 2 ^ (e - e0)) (2 ^ (- e0)).
Proof.
  intros H0 Hle.
  assert (Hd : 0 < 2 ^ (- e0)) by (apply Z.pow_pos_nonneg; lia).
  destruct (Z.lt_ge_cases e 0) as [He | He].
  - replace (round_half_even m e) with (rne_div (Zpos m) (2 ^ (- e)))
      by (destruct e; try lia; reflexivity).
    replace (- e0) with (- e + (e - e0)) by lia.
    rewrite Z.pow_add_r by lia.
    rewrite rne_div_scale; [reflexivity | |]; apply Z.pow_pos_nonneg; lia.
  - replace (round_half_even m e) with (Zpos m * 2 ^ e)
      by (destruct e; try lia; reflexivity).
    replace (e - e0) with (e + - e0) by lia.
    rewrite Z.pow_add_r, Z.mul_assoc by lia.
    rewrite rne_div_exact by lia. reflexivity.
Qed.

Lemma digits2_pos_lower (m : positive) :
  2 ^ (Zpos (digits2_pos m) - 1) <= Zpos m.
Proof.
  induction m as [m IH | m IH |]; simpl digits2_pos.
  - rewrite Pos2Z.inj_succ. replace (Z.succ (Zpos (digits2_pos m)) - 1)
      with (Z.succ (Zpos (digits2_pos m) - 1)) by lia.
    rewrite Z.pow_succ_r by lia. lia.
  - rewrite Pos2Z.inj_succ. replace (Z.succ (Zpos (digits2_pos m)) - 1)
      with (Z.succ (Zpos (digits2_pos m) - 1)) by lia.
    rewrite Z.pow_succ_r by lia. lia.
  - reflexivity.
Qed.

(** Rounding is monotone on the positive doubles. *)
Lemma round_half_even_mono m1 e1 m2 e2 :
  valid_binary (S754_finite false m1 e1) = true ->
  valid_binary (S754_finite false m2 e2) = true ->
  SFleb (S754_finite false m1 e1) (S754_finite false m2 e2) = true ->
  round_half_even m1 e1 <= round_half_even m2 e2.
Proof.
  intros V1 V2 Hle.
  pose proof (valid_mantissa_bound _ _ _ V1) as U1.
  unfold valid_binary, bounded, canonical_mantissa, fexp, emin in V1, V2.
  apply andb_prop in V1 as [V1 _]. apply andb_prop in V2 as [V2 _].
  apply Z.eqb_eq in V1, V2.
  pose proof (digits2_pos_lower m2) as L2.
  set (e0 := Z.min e1 (-1)).
  assert (H0 : e0 < 0) by (unfold e0; lia).
  assert (H1 : e0 <= e1) by (unfold e0; lia).
  assert (P1 : 0 < 2 ^ (e1 - e0)) by (apply Z.pow_pos_nonneg; lia).
  unfold SFleb, SFcompare in Hle.
  destruct (Z.compare_spec e1 e2) as [He | He | He]; try discriminate Hle.
  - subst e2. rewrite Pos.compare_cont_spec in Hle. cbn [Pos.switch_Eq] in Hle.
    assert (Hm : Zpos m1 <= Zpos m2)
      by (destruct (Pos.compare_spec m1 m2); try discriminate Hle; lia).
    rewrite (round_half_even_at m1 e1 e0), (round_half_even_at m2 e1 e0) by lia.
    apply rne_div_mono; [apply Z.pow_pos_nonneg; lia | nia].
  - rewrite (round_half_even_at m1 e1 e0), (round_half_even_at m2 e2 e0) by lia.
    apply rne_div_mono; [apply Z.pow_pos_nonneg; lia |].
    assert (D2 : Zpos (digits2_pos m2) = 53) by (unfold prec in V1, V2; lia).
    rewrite D2 in L2. change (2 ^ (53 - 1)) with (2 ^ 52) in L2.
    replace (e2 - e0) with ((e2 - e1 - 1) + 1 + (e1 - e0)) by lia.
    rewrite !Z.pow_add_r by lia.
    assert (P2 : 0 < 2 ^ (e2 - e1 - 1)) by (apply Z.pow_pos_nonneg; lia).
    change (2 ^ 1) with 2.
    set (A := 2 ^ (e1 - e0)) in *. set (B := 2 ^ (e2 - e1 - 1)) in *.
    assert (S1 : Zpos m1 * A <= Zpos m2 * 2 * A)
      by (apply Z.mul_le_mono_nonneg_r; lia).
    assert (S2 : Zpos m2 * 2 * A * 1 <= Zpos m2 * 2 * A * B)
      by (apply Z.mul_le_mono_nonneg_l; lia).
    lia.
Qed.

Lemma round_half_even_nonneg m e : 0 <= round_half_even m e.
Proof.
  destruct e as [| p | p]; cbn [round_half_even].
  - lia.
  - assert (0 < 2 ^ Zpos p) by (apply Z.pow_pos_nonneg; lia). nia.
  - assert (Hd : 0 < 2 ^ Zpos p) by (apply Z.pow_pos_nonneg; lia).
    assert (0 <= Zpos m / 2 ^ Zpos p) by (apply Z.div_pos; lia).
    cbv zeta. destruct (_ ?= _); [destruct (Z.even _) | |]; lia.
Qed.

Local Open Scope float_scope.

(** [round_float] is constant between two doubles, none negative, on which it
    agrees. *)
Lemma round_float_between lo hi x n :
  (0 <=? lo) = true -> (lo <=? x) = true -> (x <=? hi) = true ->
  round_float lo = Ok n -> round_float hi = Ok n -> round_float x = Ok n.
Proof.
  rewrite !leb_spec. intros H0 H1 H2.
  pose proof (Prim2SF_valid lo) as Vl. pose proof (Prim2SF_valid x) as Vx.
  pose proof (Prim2SF_valid hi) as Vh.
  unfold round_float.
  change (Prim2SF 0) with (S754_zero false) in H0.
  destruct (Prim2SF lo) as [sl | sl | | sl ml el];
    try discriminate; try (destruct sl; discriminate).
  - (* lo is a zero *)
    intros Hl. injection Hl as <-.
    destruct (Prim2SF x) as [sx | sx | | sx mx ex]; try discriminate.
    + reflexivity.
    + destruct sx; [discriminate H1 |].
      destruct (Prim2SF hi) as [sh | sh | | sh mh eh]; discriminate.
    + destruct sx; [discriminate H1 |].
      destruct (Prim2SF hi) as [sh | sh | | sh mh eh]; try discriminate.
      destruct sh; [discriminate H2 |].
      intros Hh. injection Hh as Hh. f_equal.
      pose proof (round_half_even_mono _ _ _ _ Vx Vh H2).
      pose proof (round_half_even_nonneg mx ex). lia.
  - (* lo is positive *)
    destruct sl; [discriminate H0 |].
    intros Hl. injection Hl as Hl.
    destruct (Prim2SF x) as [sx | sx | | sx mx ex]; try discriminate.
    + destruct sx; [discriminate H1 |].
      destruct (Prim2SF hi) as [sh | sh | | sh mh eh]; discriminate.
    + destruct sx; [discriminate H1 |].
      destruct (Prim2SF hi) as [sh | sh | | sh mh eh]; try discriminate.
      destruct sh; [discriminate H2 |].
      intros Hh. injection Hh as Hh. f_equal.
      pose proof (round_half_even_mono _ _ _ _ Vl Vx H1).
      pose proof (round_half_even_mono _ _ _ _ Vx Vh H2). lia.
Qed.

Lemma windows_checked : forallb window_ok round_windows = true.
Proof. vm_compute. reflexivity. Qed.

Lemma in_firstn_skipn {A} (a : A) i j l :
  In a (firstn i (skipn j l)) -> In a l.
Proof.
  intros H.
  assert (H' : In a (skipn j l)).
  { revert H. generalize (skipn j l) as t. clear.
    induction i as [| i IH]; intros [| b t] H; try contradiction.
    destruct H as [H | H]; [left; exact H | right; apply IH, H]. }
  clear H. revert l H'.
  induction j as [| j IH]; intros l H; [exact H |].
  destruct l as [| b l]; [destruct H |]. right. apply IH, H.
Qed.

Lemma find_window_sound ws x n :
  forallb window_ok ws = true ->
  find_window x ws = Some n -> round_float x = Ok n.
Proof.
  intros Hws. unfold find_window.
  destruct (find _ ws) as [[[lo hi] k] |] eqn:Hf; [| discriminate].
  cbn [option_map snd]. intros E. injection E as <-.
  apply find_some in Hf as [Hin Hc]. cbn [fst snd] in Hc.
  apply andb_prop in Hc as [H1 H2].
  rewrite forallb_forall in Hws. specialize (Hws _ Hin).
  unfold window_ok in Hws. apply andb_prop in Hws as [H0 Hr].
  destruct (round_float lo) as [a |] eqn:Ea; [| discriminate Hr].
  destruct (round_float hi) as [b |] eqn:Eb; [| discriminate Hr].
  apply andb_prop in Hr as [Ha Hb]. apply Z.eqb_eq in Ha, Hb. subst a b.
  exact (round_float_between lo hi x k H0 H1 H2 Ea Eb).
Qed.

Lemma forallb_sub {A} (p : A -> bool) i j l :
  forallb p l = true -> forallb p (firstn i (skipn j l)) = true.
Proof.
  intros H. rewrite forallb_forall in *. intros a Ha.
  apply H, (in_firstn_skipn a i j l Ha).
Qed.

Lemma fast_round_sound x k n : fast_round x k = Some n -> round_float x = Ok n.
Proof.
  unfold fast_round. apply find_window_sound, forallb_sub, windows_checked.
Qed.

Lemma exact_pairs_checked : all_pairs exact_check byte_table = true.
Proof. vm_compute. reflexivity. Qed.

Lemma normalised_ltb a b :
  byte a -> byte b -> (normalised a <? normalised b) = (a <? b)%Z.
Proof.
  intros Ha Hb.
  pose proof (all_pairs_spec order_check byte_table order_pairs_checked
                _ _ (byte_in_table a Ha) (byte_in_table b Hb)) as H.
  unfold order_check in H. cbn [fst snd] in H.
  apply Bool.eqb_prop in H. exact H.
Qed.

Lemma max3_normalised r g b :
  byte r -> byte g -> byte b ->
  max3 (normalised r) (normalised g) (normalised b)
  = normalised (Z.max r (Z.max g b)).
Proof.
  intros Hr Hg Hb. unfold max3. rewrite (normalised_ltb r g Hr Hg).
  destruct (Z.ltb_spec r g).
  - rewrite (normalised_ltb g b Hg Hb). destruct (Z.ltb_spec g b); f_equal; lia.
  - rewrite (normalised_ltb r b Hr Hb). destruct (Z.ltb_spec r b); f_equal; lia.
Qed.

Lemma min3_normalised r g b :
  byte r -> byte g -> byte b ->
  min3 (normalised r) (normalised g) (normalised b)
  = normalised (Z.min r (Z.min g b)).
Proof.
  intros Hr Hg Hb. unfold min3. rewrite (normalised_ltb g r Hg Hr).
  destruct (Z.ltb_spec g r).
  - rewrite (normalised_ltb b g Hb Hg). destruct (Z.ltb_spec b g); f_equal; lia.
  - rewrite (normalised_ltb b r Hb Hr). destruct (Z.ltb_spec b r); f_equal; lia.
Qed.

Lemma nearestb_spec n p q : nearestb n p q = true -> nearest_to n p q.
Proof. unfold nearestb, nearest_to. apply Z.leb_le. Qed.

(** The rounded lightness and saturation of a largest channel [M] and a
    smallest channel [m]. *)
Lemma exact_pair M m :
  byte M -> byte m -> (m <= M)%Z ->
  let delta := normalised M - normalised m in
  let l := (normalised M + normalised m) / 2 in
  let den := 1 - abs (2 * l - 1) in
  is_zero_float delta = (M =? m)%Z
  /\ (exists li, round_float (l * 100) = Ok li
                 /\ nearest_to li (10 * (M + m)) 51)
  /\ ((M <> m)%Z ->
      exists sat, round_float (delta / den * 100) = Ok sat
                  /\ nearest_to sat (100 * (M - m)) (255 - Z.abs (M + m - 255))).
Proof.
  intros HM Hm Hle.
  pose proof (all_pairs_spec exact_check byte_table exact_pairs_checked
                _ _ (byte_in_table M HM) (byte_in_table m Hm)) as H.
  unfold exact_check in H. cbv beta iota zeta in H.
  destruct (Z.ltb_spec M m); [lia |].
  cbv zeta.
  apply andb_prop in H as [H Hs]. apply andb_prop in H as [Hd Hl].
  apply Bool.eqb_prop in Hd. split; [exact Hd |]. split.
  - destruct (fast_round _ _) as [li |] eqn:Hr in Hl; [| discriminate Hl].
    exists li. split; [exact (fast_round_sound _ _ _ Hr) | apply nearestb_spec, Hl].
  - intros Hne. destruct (Z.eqb_spec M m); [contradiction |].
    destruct (fast_round _ _) as [sat |] eqn:Hr in Hs; [| discriminate Hs].
    exists sat. split; [exact (fast_round_sound _ _ _ Hr) | apply nearestb_spec, Hs].
Qed.

(** [hsl_tail] with its rounded lightness and saturation named. *)
Lemma hsl_tail_rounds r g b li :
  check r g b = true ->
  let delta := max3 r g b - min3 r g b in
  let l := (max3 r g b + min3 r g b) / 2 in
  let den := 1 - abs (2 * l - 1) in
  round_float (l * 100) = Ok li ->
  exists h s,
    outcome (hsl_tail r g b) = Ok (hsl_string h s li)
    /\ (if is_zero_float delta then h = 0%Z /\ s = 0%Z
        else round_float (delta / den * 100) = Ok s).
Proof.
  unfold check, hsl_tail. intros H.
  set (max_c := max3 r g b) in *. set (min_c := min3 r g b) in *.
  cbv zeta. set (delta := max_c - min_c) in *. intros Hrl.
  apply andb_prop in H as [_ H].
  rewrite (fdiv_nonzero (max_c + min_c) 2) by reflexivity.
  destruct (is_zero_float delta) eqn:Hd.
  - exists 0%Z, 0%Z.
    rewrite bind_ret, bind_ok, bind_ret. cbn [round mul_int Z.mul].
    rewrite !bind_lift_ok. cbn [round].
    rewrite bind_lift_ok, Hrl, bind_lift_ok.
    cbn. repeat split.
  - cbv zeta in H.
    set (l := (max_c + min_c) / 2) in *. set (den := 1 - abs (2 * l - 1)) in *.
    apply andb_prop in H as [H Hs]. apply andb_prop in H as [Hh Hden].
    apply negb_true_iff in Hden.
    destruct (round_percent _ Hs) as (s & Hrs & _).
    assert (Hhue : exists q h,
      (if max_c =? r
       then q <- fdiv (g - b) delta ;; m <- float_mod q 6 ;; ret (Float (60 * m))
       else if max_c =? g
            then q <- fdiv (b - r) delta ;; ret (Float (60 * (q + 2)))
            else q <- fdiv (r - g) delta ;; ret (Float (60 * (q + 4))))
      = ([EvDiv q delta], Ok (Float h)) /\ in_range h 360.5 = true).
    { destruct (max_c =? r); [| destruct (max_c =? g)].
      - apply andb_prop in Hh as [Hq Hh].
        exists (g - b), (60 * wrap6 ((g - b) / delta)).
        rewrite fdiv_nonzero, bind_ok, (float_mod_small _ Hq), bind_ret by assumption.
        split; [reflexivity | assumption].
      - exists (b - r), (60 * ((b - r) / delta + 2)).
        rewrite fdiv_nonzero, bind_ok by assumption.
        split; [reflexivity | assumption].
      - exists (r - g), (60 * ((r - g) / delta + 4)).
        rewrite fdiv_nonzero, bind_ok by assumption.
        split; [reflexivity | assumption]. }
    destruct Hhue as (q & hf & -> & Hhf).
    destruct (round_hue _ Hhf) as (h & Hrh & _).
    exists h, s.
    mstep. fold l; fold den.
    rewrite (fdiv_nonzero delta den) by assumption. mstep.
    rewrite Hrh. mstep.
    change (mul_int (Float (delta / den)) 100) with (Ok (Float (delta / den * 100))).
    mstep. rewrite Hrs. mstep. rewrite Hrl. mstep.
    split; reflexivity.
Qed.

(** A valid run in exact terms: with [M] and [m] the largest and smallest
    channel, the lightness is a nearest integer to 100 (M + m) / 510, and the
    saturation is 0 for a gray and otherwise a nearest integer to
    100 (M - m) / (255 - |M + m - 255|). *)
Lemma hex_to_hsl_exact s :
  hex6_input s ->
  exists R G B h sat li,
    byte R /\ byte G /\ byte B
    /\ int16 (slice (lstrip s "#") 0 2) = Ok R
    /\ int16 (slice (lstrip s "#") 2 4) = Ok G
    /\ int16 (slice (lstrip s "#") 4 6) = Ok B
    /\ outcome (HexToHsl.hex_to_hsl s) = Ok (hsl_string h sat li)
    /\ let M := Z.max R (Z.max G B) in
       let m := Z.min R (Z.min G B) in
       nearest_to li (10 * (M + m)) 51
       /\ (M = m -> h = 0%Z /\ sat = 0%Z)
       /\ (M <> m ->
           nearest_to sat (100 * (M - m)) (255 - Z.abs (M + m - 255))).
Proof.
  intros Hs.
  destruct (parse_hex6 _ Hs) as (R & G & B & HR & HG & HB & ER & EG & EB).
  pose proof (check_bytes R G B HR HG HB) as Hc.
  set (M := Z.max R (Z.max G B)). set (m := Z.min R (Z.min G B)).
  assert (HM : byte M) by (unfold byte, M in *; lia).
  assert (Hm : byte m) by (unfold byte, m in *; lia).
  assert (Hle : (m <= M)%Z) by (unfold M, m; lia).
  destruct (exact_pair M m HM Hm Hle) as (Hz & (li & Hrl & Hli) & Hsat).
  pose proof (hsl_tail_rounds _ _ _ li Hc) as Ht. cbv zeta in Ht.
  rewrite (max3_normalised R G B HR HG HB),
          (min3_normalised R G B HR HG HB) in Ht.
  fold M m in Ht. specialize (Ht Hrl).
  destruct Ht as (h & sat & Hout & Hcase).
  exists R, G, B, h, sat, li.
  rewrite (hex_to_hsl_parsed s R G B _ _ _ ER EG EB
             (float_of_byte R HR) (float_of_byte G HG) (float_of_byte B HB)).
  fold (normalised R). fold (normalised G). fold (normalised B).
  unfold prepend. cbn [outcome snd].
  do 7 (split; [assumption |]). cbv zeta. fold M m.
  rewrite Hz in Hcase. split; [exact Hli |]. split.
  - intros E. apply Z.eqb_eq in E. rewrite E in Hcase. exact Hcase.
  - intros Hne. destruct (Hsat Hne) as (sat' & Hrs & Hn).
    destruct (Z.eqb_spec M m); [contradiction |].
    rewrite Hrs in Hcase. injection Hcase as <-. exact Hn.
Qed.


(** X1. On every valid input the lightness is a nearest integer to the exact
    percentage 100 (M + m) / 510 of the largest and smallest channel: the
    float arithmetic never moves it to another integer. *)
Theorem lightness_is_exact s :
  hex6_input s ->
  exists R G B h sat li,
    int16 (slice (lstrip s "#") 0 2) = Ok R
    /\ int16 (slice (lstrip s "#") 2 4) = Ok G
    /\ int16 (slice (lstrip s "#") 4 6) = Ok B
    /\ outcome (HexToHsl.hex_to_hsl s) = Ok (hsl_string h sat li)
    /\ nearest_to li (10 * (Z.max R (Z.max G B) + Z.min R (Z.min G B))) 51.
Proof.
  intros Hs.
  destruct (hex_to_hsl_exact s Hs)
    as (R & G & B & h & sat & li & _ & _ & _ & ER & EG & EB & Hout & Hli & _).
  exists R, G, B, h, sat, li. repeat (split; [assumption |]). exact Hli.
Qed.

Lemma lightness_is_exact_witness :
  exists R G B h sat li,
    int16 (slice (lstrip "#4a6bb0" "#") 0 2) = Ok R
    /\ int16 (slice (lstrip "#4a6bb0" "#") 2 4) = Ok G
    /\ int16 (slice (lstrip "#4a6bb0" "#") 4 6) = Ok B
    /\ outcome (HexToHsl.hex_to_hsl "#4a6bb0") = Ok (hsl_string h sat li)
    /\ nearest_to li (10 * (Z.max R (Z.max G B) + Z.min R (Z.min G B))) 51.
Proof. apply (lightness_is_exact "#4a6bb0"). reflexivity. Defined.

(** X2. On every valid input the saturation is 0 when the three channels are
    equal, and otherwise a nearest integer to the exact percentage
    100 (M - m) / (255 - |M + m - 255|). *)
Theorem saturation_is_exact s :
  hex6_input s ->
  exists R G B h sat li,
    int16 (slice (lstrip s "#") 0 2) = Ok R
    /\ int16 (slice (lstrip s "#") 2 4) = Ok G
    /\ int16 (slice (lstrip s "#") 4 6) = Ok B
    /\ outcome (HexToHsl.hex_to_hsl s) = Ok (hsl_string h sat li)
    /\ let M := Z.max R (Z.max G B) in
       let m := Z.min R (Z.min G B) in
       (M = m -> sat = 0%Z)
       /\ (M <> m ->
           nearest_to sat (100 * (M - m)) (255 - Z.abs (M + m - 255))).
Proof.
  intros Hs.
  destruct (hex_to_hsl_exact s Hs)
    as (R & G & B & h & sat & li & _ & _ & _ & ER & EG & EB & Hout & _ & Hg & Hc).
  exists R, G, B, h, sat, li. repeat (split; [assumption |]).
  cbv zeta. split; [intros E; apply (Hg E) | exact Hc].
Qed.

Lemma saturation_is_exact_witness :
  exists R G B h sat li,
    int16 (slice (lstrip "#2a4580" "#") 0 2) = Ok R
    /\ int16 (slice (lstrip "#2a4580" "#") 2 4) = Ok G
    /\ int16 (slice (lstrip "#2a4580" "#") 4 6) = Ok B
    /\ outcome (HexToHsl.hex_to_hsl "#2a4580") = Ok (hsl_string h sat li)
    /\ let M := Z.max R (Z.max G B) in
       let m := Z.min R (Z.min G B) in
       (M = m -> sat = 0%Z)
       /\ (M <> m ->
           nearest_to sat (100 * (M - m)) (255 - Z.abs (M + m - 255))).
Proof. apply (saturation_is_exact "#2a4580"). reflexivity. Defined.

Local Close Scope float_scope.

(** *** What the converter reads of its input *)

Lemma lstrip_hashes n s : lstrip (hashes n ++ s) "#" = lstrip s "#".
Proof. induction n as [| n IH]; [reflexivity | exact IH]. Qed.

(** X3. Any number of leading '#' characters is stripped: they never change the
    result. *)
Theorem leading_hashes_ignored n s :
  HexToHsl.hex_to_hsl (hashes n ++ s) = HexToHsl.hex_to_hsl s.
Proof.
  apply hex_to_hsl_slices; rewrite lstrip_hashes; reflexivity.
Qed.

Lemma hex_to_hsl_by_channels s s' :
  int16 (slice (lstrip s "#") 0 2) = int16 (slice (lstrip s' "#") 0 2) ->
  int16 (slice (lstrip s "#") 2 4) = int16 (slice (lstrip s' "#") 2 4) ->
  int16 (slice (lstrip s "#") 4 6) = int16 (slice (lstrip s' "#") 4 6) ->
  HexToHsl.hex_to_hsl s = HexToHsl.hex_to_hsl s'.
Proof.
  intros H0 H2 H4. unfold HexToHsl.hex_to_hsl. cbv zeta.
  rewrite H0, H2, H4. reflexivity.
Qed.

Lemma ascii_lower_not_hash c : ascii_in (ascii_lower c) "#" = ascii_in c "#".
Proof. destruct c as [[] [] [] [] [] [] [] []]; reflexivity. Qed.

Lemma lstrip_lower s :
  lstrip (string_lower s) "#" = string_lower (lstrip s "#").
Proof.
  induction s as [| c s IH]; [reflexivity |].
  cbn [string_lower lstrip]. rewrite ascii_lower_not_hash.
  destruct (ascii_in c "#"); [exact IH | reflexivity].
Qed.

Lemma lower_hex_pair c1 c2 :
  ascii_in c1 hex_digits = true -> ascii_in c2 hex_digits = true ->
  ascii_in (ascii_lower c1) hex_digits = true
  /\ int16 (String (ascii_lower c1) (String (ascii_lower c2) ""))
     = int16 (String c1 (String c2 "")).
Proof.
  intros H1 H2. apply hex_digit_cases in H1. apply hex_digit_cases in H2.
  cbn in H1, H2.
  repeat (destruct H1 as [<- | H1]); try contradiction;
    repeat (destruct H2 as [<- | H2]); try contradiction;
    (split; vm_compute; reflexivity).
Qed.

(** X4. The digits are read without regard to case: lower-casing a valid input
    gives a valid input with the same result. *)
Theorem letter_case_ignored s :
  hex6_input s ->
  hex6_input (string_lower s)
  /\ HexToHsl.hex_to_hsl (string_lower s) = HexToHsl.hex_to_hsl s.
Proof.
  unfold hex6_input. intros Hs.
  assert (Hs' := Hs). unfold is_hex6 in Hs'.
  apply andb_prop in Hs' as [Hlen Hall]. apply Nat.eqb_eq in Hlen.
  assert (E := lstrip_lower s).
  remember (lstrip s "#") as t eqn:Et.
  destruct t as [| c1 [| c2 [| c3 [| c4 [| c5 [| c6 [| c7 t]]]]]]];
    try discriminate Hlen.
  cbn [list_ascii_of_string forallb] in Hall.
  repeat (apply andb_prop in Hall as [? Hall]).
  destruct (lower_hex_pair c1 c2) as [L1 P1]; try assumption.
  destruct (lower_hex_pair c2 c1) as [L2 _]; try assumption.
  destruct (lower_hex_pair c3 c4) as [L3 P2]; try assumption.
  destruct (lower_hex_pair c4 c3) as [L4 _]; try assumption.
  destruct (lower_hex_pair c5 c6) as [L5 P3]; try assumption.
  destruct (lower_hex_pair c6 c5) as [L6 _]; try assumption.
  split.
  - rewrite E. unfold is_hex6. cbn [string_lower String.length Nat.eqb].
    cbn [list_ascii_of_string forallb andb].
    rewrite L1, L2, L3, L4, L5, L6. reflexivity.
  - apply hex_to_hsl_by_channels; rewrite E, <- Et;
      cbn [string_lower slice substring Nat.sub]; assumption.
Qed.

Lemma letter_case_ignored_witness :
  hex6_input (string_lower "#6D82AD")
  /\ HexToHsl.hex_to_hsl (string_lower "#6D82AD")
     = HexToHsl.hex_to_hsl "#6D82AD".
Proof. apply (letter_case_ignored "#6D82AD"). reflexivity. Defined.

Lemma single_hex_digit c :
  ascii_in c hex_digits = true ->
  ascii_in c "#" = false
  /\ int16 (String c "") = int16 (String "0" (String c "")).
Proof.
  intros H. apply hex_digit_cases in H. cbn in H.
  repeat (destruct H as [<- | H]); try contradiction;
    (split; vm_compute; reflexivity).
Qed.

(** X5. A 5-digit input is not rejected: its last digit is read alone as the third
    channel, so it converts like the 6-digit input with a 0 put before the
    last digit. *)
Theorem five_digits_accepted s c1 c2 c3 c4 c5 :
  lstrip s "#" = String c1 (String c2 (String c3 (String c4 (String c5 "")))) ->
  forallb (fun c => ascii_in c hex_digits) [c1; c2; c3; c4; c5] = true ->
  let padded :=
    String c1 (String c2 (String c3 (String c4 (String "0" (String c5 ""))))) in
  hex6_input padded
  /\ HexToHsl.hex_to_hsl s = HexToHsl.hex_to_hsl padded
  /\ exists out, outcome (HexToHsl.hex_to_hsl s) = Ok out.
Proof.
  intros Es Hall padded. cbn [forallb] in Hall.
  repeat (apply andb_prop in Hall as [? Hall]).
  destruct (single_hex_digit c1) as [N1 _]; [assumption |].
  destruct (single_hex_digit c5) as [_ P5]; [assumption |].
  assert (Ep : lstrip padded "#" = padded)
    by (unfold padded; cbn [lstrip]; rewrite N1; reflexivity).
  assert (Hp : hex6_input padded).
  { unfold hex6_input. rewrite Ep. unfold padded, is_hex6.
    cbn [String.length Nat.eqb list_ascii_of_string forallb andb].
    repeat match goal with H : ascii_in _ hex_digits = true |- _ =>
             rewrite H; clear H end.
    reflexivity. }
  assert (E : HexToHsl.hex_to_hsl s = HexToHsl.hex_to_hsl padded).
  { apply hex_to_hsl_by_channels; rewrite Es, Ep; unfold padded;
      cbn [slice substring Nat.sub]; first [reflexivity | exact P5]. }
  split; [exact Hp |]. split; [exact E |].
  rewrite E.
  destruct (hex_to_hsl_valid padded Hp)
    as (R & G & B & h & sat & l & _ & _ & _ & _ & _ & _ & Hout & _).
  eexists. exact Hout.
Qed.

Lemma five_digits_accepted_witness :
  hex6_input "3b5809"
  /\ HexToHsl.hex_to_hsl "#3b589" = HexToHsl.hex_to_hsl "3b5809"
  /\ exists out, outcome (HexToHsl.hex_to_hsl "#3b589") = Ok out.
Proof.
  apply (five_digits_accepted "#3b589" "3" "b" "5" "8" "9"); reflexivity.
Defined.

End ConverterFacts.

(** ** Further properties of the scripts *)

Module ScriptFacts.

Import HslFacts.

(** *** The converter's effects *)

Lemma only_divisions_bind {A B} (m : M A) (k : A -> M B) :
  only_divisions m -> (forall a, only_divisions (k a)) ->
  only_divisions (bind m k).
Proof.
  unfold only_divisions, bind. intros Hm Hk.
  destruct m as [tr [a | e]]; [| exact Hm].
  specialize (Hk a). destruct (k a) as [tr' r].
  cbn [events fst] in *. apply Forall_app. split; assumption.
Qed.

Lemma only_divisions_lift {A} (r : result A) : only_divisions (lift r).
Proof. constructor. Qed.

Lemma only_divisions_fdiv x y : only_divisions (fdiv x y).
Proof.
  unfold fdiv. apply only_divisions_bind.
  - repeat constructor.
  - intros _. destruct (is_zero_float y); constructor.
Qed.

Lemma only_divisions_float_mod x y : only_divisions (float_mod x y).
Proof.
  unfold float_mod.
  repeat match goal with
         | |- context [if ?c then _ else _] => destruct c
         end; constructor.
Qed.

Ltac only_divs :=
  repeat first
    [ apply only_divisions_lift
    | apply only_divisions_fdiv
    | apply only_divisions_float_mod
    | apply only_divisions_bind; [| intros ?]
    | match goal with
      | |- only_divisions (if ?c then _ else _) => destruct c
      | |- only_divisions (int_div_float _ _) => unfold int_div_float
      | |- only_divisions (ret _) => constructor
      end ].

Lemma hex_to_hsl_only_divisions s : only_divisions (HexToHsl.hex_to_hsl s).
Proof. unfold HexToHsl.hex_to_hsl. cbv zeta. only_divs. Qed.

(** X6. On every input string, valid or not, neither copy of the converter prints
    or writes anything: the only effects of a run are its divisions. *)
Theorem converter_only_divides s :
  only_divisions (HexToHsl.hex_to_hsl s)
  /\ only_divisions (UpdateColor.hex_to_hsl_hex s).
Proof.
  split; [apply hex_to_hsl_only_divisions |].
  unfold UpdateColor.hex_to_hsl_hex. cbv zeta. only_divs.
Qed.


Lemma printed_of_divisions {A} (m : M A) :
  only_divisions m -> printed (events m) = [].
Proof.
  unfold only_divisions, printed. induction 1 as [| ev tr Hev _ IH]; [reflexivity |].
  destruct ev; try contradiction. exact IH.
Qed.

(** *** hex_to_hsl.py, run as a script *)

(** X7. The report loop on any table of valid colors completes and prints one
    line per entry, in table order: the name padded to 25 characters, the
    color, and its conversion. *)
Theorem report_prints_each_color colors :
  Forall (fun entry => hex6_input (snd entry)) colors ->
  outcome (HexToHslScript.report colors) = Ok tt
  /\ printed (events (HexToHslScript.report colors))
     = map (fun entry =>
              (ljust25 (fst entry) ++ ": " ++ snd entry ++ " -> "
               ++ converted (snd entry))%string)
           colors.
Proof.
  induction 1 as [| [name c] rest Hc _ IH]; [split; reflexivity |].
  cbn [snd fst] in Hc. destruct IH as [IHo IHp].
  cbn [HexToHslScript.report map fst snd]. unfold converted.
  destruct (hex_to_hsl_valid c Hc)
    as (R & G & B & h & sat & l & _ & _ & _ & _ & _ & _ & Hout & _).
  pose proof (printed_of_divisions _ (hex_to_hsl_only_divisions c)) as Hp.
  destruct (HexToHsl.hex_to_hsl c) as [tr r]. cbn [outcome events fst snd] in *.
  subst r. rewrite bind_ok. unfold print, emit. rewrite bind_ok.
  cbn [outcome events fst snd app].
  split; [exact IHo |].
  unfold printed in *. rewrite flat_map_app, Hp. cbn [flat_map app].
  rewrite IHp. reflexivity.
Qed.

Lemma report_prints_each_color_witness :
  outcome (HexToHslScript.report HexToHslScript.logo_colors) = Ok tt
  /\ printed (events (HexToHslScript.report HexToHslScript.logo_colors))
     = map (fun entry =>
              (ljust25 (fst entry) ++ ": " ++ snd entry ++ " -> "
               ++ converted (snd entry))%string)
           HexToHslScript.logo_colors.
Proof.
  apply (report_prints_each_color HexToHslScript.logo_colors).
  repeat constructor.
Defined.

Example hex_to_hsl_script_run :
  outcome HexToHslScript.script = Ok tt
  /\ List.length (printed (events HexToHslScript.script)) = 11%nat
  /\ nth 2 (printed (events HexToHslScript.script)) ""
     = "primary (top-left)       : #3b5894 -> 220 43% 41%".
Proof. vm_compute. repeat split. Qed.

Example update_color_script_run :
  outcome UpdateColorScript.script = Ok tt
  /\ printed (events UpdateColorScript.script)
     = [ "Primary color: #3b5a95"; "HSL: 219 43% 41%"; "";
         "CSS variable: --primary: 219 43% 41%;" ].
Proof. vm_compute. repeat split. Qed.


(** *** extract_logo_color.py *)

Lemma rgb_to_hex_three px :
  (3 <= List.length px)%nat ->
  ExtractLogoColor.rgb_to_hex px = ret (hex_of_pixel px).
Proof.
  intros H. destruct px as [| r [| g [| b [| a [| x rest]]]]];
    cbn in H; try lia; reflexivity.
Qed.

(** X8. [rgb_to_hex] needs three channels: a shorter tuple is an IndexError; of a
    longer one only the first three channels count. It has no effect. *)
Theorem rgb_to_hex_needs_three px :
  events (ExtractLogoColor.rgb_to_hex px) = []
  /\ ((List.length px < 3)%nat ->
      outcome (ExtractLogoColor.rgb_to_hex px) = Raise IndexError)
  /\ ((3 <= List.length px)%nat ->
      ExtractLogoColor.rgb_to_hex px
      = ExtractLogoColor.rgb_to_hex (firstn 3 px)
      /\ outcome (ExtractLogoColor.rgb_to_hex px) = Ok (hex_of_pixel px)).
Proof.
  split; [| split].
  - destruct px as [| r [| g [| b [| a [| x rest]]]]]; reflexivity.
  - intros H. destruct px as [| r [| g [| b rest]]]; cbn in H; try lia;
      reflexivity.
  - intros H. rewrite (rgb_to_hex_three px H).
    destruct px as [| r [| g [| b rest]]]; cbn in H; try lia.
    split; reflexivity.
Qed.

Lemma rgb_to_hex_needs_three_witness :
  outcome (ExtractLogoColor.rgb_to_hex [59; 88]) = Raise IndexError
  /\ ExtractLogoColor.rgb_to_hex [59; 88; 148; 255; 7]
     = ExtractLogoColor.rgb_to_hex (firstn 3 [59; 88; 148; 255; 7]).
Proof.
  split.
  - apply (proj1 (proj2 (rgb_to_hex_needs_three [59; 88]))). cbn. lia.
  - apply (proj2 (proj2 (rgb_to_hex_needs_three [59; 88; 148; 255; 7]))).
    cbn. lia.
Defined.

Lemma hex2_checked : all_below 256 0 hex2_check = true.
Proof. vm_compute. reflexivity. Qed.

Lemma hex2_reads_back z :
  byte z ->
  ascii_in (hex_char (z / 16)) hex_digits = true
  /\ ascii_in (hex_char (z mod 16)) hex_digits = true
  /\ ascii_in (hex_char (z / 16)) "#" = false
  /\ int16 (hex2 z) = Ok z.
Proof.
  intros Hz.
  pose proof (all_below_spec _ _ _ hex2_checked z
                ltac:(unfold byte in Hz; lia)) as H.
  unfold hex2_check in H. unfold hex2 at 1 in H. cbv iota in H.
  apply andb_prop in H as [H Hv]. apply andb_prop in H as [H Hn].
  apply andb_prop in H as [Ha Hb]. apply negb_true_iff in Hn.
  repeat (split; [assumption |]).
  destruct (int16 (hex2 z)) as [v |]; [| discriminate Hv].
  apply Z.eqb_eq in Hv. now subst.
Qed.

Lemma rgb_to_hex_bytes r g b rest :
  byte r -> byte g -> byte b -> (List.length rest <= 1)%nat ->
  ExtractLogoColor.rgb_to_hex (r :: g :: b :: rest)
  = ret ("#" ++ hex2 r ++ hex2 g ++ hex2 b)%string.
Proof.
  intros Hr Hg Hb Hrest.
  rewrite rgb_to_hex_three by (cbn; lia). unfold hex_of_pixel. cbn [nth].
  rewrite !SamplerFacts.format_02x_byte by assumption. reflexivity.
Qed.

(** X9. What the sampler prints is what the converter accepts: the '#rrggbb' form
    of a pixel of 3 or 4 channels in [0, 255] is a valid input, its three
    slices read back the pixel's first three channels, and converting it
    returns an "H S% L%" within the documented ranges. *)
Theorem sampled_pixel_converts px :
  (List.length px = 3 \/ List.length px = 4)%nat ->
  Forall byte px ->
  exists r g b rest str h sat l,
    px = r :: g :: b :: rest
    /\ ExtractLogoColor.rgb_to_hex px = ret str
    /\ hex6_input str
    /\ int16 (slice (lstrip str "#") 0 2) = Ok r
    /\ int16 (slice (lstrip str "#") 2 4) = Ok g
    /\ int16 (slice (lstrip str "#") 4 6) = Ok b
    /\ outcome (str <- ExtractLogoColor.rgb_to_hex px ;; HexToHsl.hex_to_hsl str)
       = Ok (hsl_string h sat l)
    /\ 0 <= h <= 360 /\ 0 <= sat <= 100 /\ 0 <= l <= 100.
Proof.
  intros Hlen Hall.
  destruct px as [| r [| g [| b rest]]];
    try (cbn in Hlen; destruct Hlen; discriminate).
  assert (Hrest : (List.length rest <= 1)%nat) by (cbn in Hlen; lia).
  inversion Hall as [| ? ? Hr H1]; subst.
  inversion H1 as [| ? ? Hg H2]; subst. inversion H2 as [| ? ? Hb _]; subst.
  destruct (hex2_reads_back r Hr) as (Ar & Br & Nr & Pr).
  destruct (hex2_reads_back g Hg) as (Ag & Bg & _ & Pg).
  destruct (hex2_reads_back b Hb) as (Ab & Bb & _ & Pb).
  set (str := ("#" ++ hex2 r ++ hex2 g ++ hex2 b)%string).
  assert (Es : lstrip str "#" = (hex2 r ++ hex2 g ++ hex2 b)%string).
  { unfold str, hex2. cbn [append lstrip]. change (ascii_in "#" "#") with true.
    cbv iota. rewrite Nr. reflexivity. }
  assert (Hs : hex6_input str).
  { unfold hex6_input. rewrite Es. unfold hex2, is_hex6.
    cbn [append String.length Nat.eqb list_ascii_of_string forallb andb].
    rewrite Ar, Br, Ag, Bg, Ab, Bb. reflexivity. }
  destruct (hex_to_hsl_valid str Hs)
    as (R & G & B & h & sat & l & _ & _ & _ & _ & _ & _ & Hout & Hh & Hsat & Hl & _).
  exists r, g, b, rest, str, h, sat, l.
  rewrite (rgb_to_hex_bytes r g b rest Hr Hg Hb Hrest). fold str.
  rewrite bind_ret, Es.
  split; [reflexivity |]. split; [reflexivity |]. split; [exact Hs |].
  split; [exact Pr |]. split; [exact Pg |]. split; [exact Pb |].
  split; [exact Hout |]. repeat split; lia.
Qed.

Lemma sampled_pixel_converts_witness :
  exists r g b rest str h sat l,
    [59; 88; 148; 255] = r :: g :: b :: rest
    /\ ExtractLogoColor.rgb_to_hex [59; 88; 148; 255] = ret str
    /\ hex6_input str
    /\ int16 (slice (lstrip str "#") 0 2) = Ok r
    /\ int16 (slice (lstrip str "#") 2 4) = Ok g
    /\ int16 (slice (lstrip str "#") 4 6) = Ok b
    /\ outcome (str <- ExtractLogoColor.rgb_to_hex [59; 88; 148; 255] ;;
                HexToHsl.hex_to_hsl str)
       = Ok (hsl_string h sat l)
    /\ 0 <= h <= 360 /\ 0 <= sat <= 100 /\ 0 <= l <= 100.
Proof.
  apply (sampled_pixel_converts [59; 88; 148; 255]).
  - right. reflexivity.
  - repeat constructor; unfold byte; lia.
Defined.


(** The run of the sampler on an image larger than 100 pixels each way. *)
Lemma sampler_large lib img :
  100 < width img -> 100 < height img -> three_channels lib img ->
  let avg := resample lib img (1, 1) 0 0 in
  let top_left := pixels img 100 100 in
  let bottom_right := pixels img (width img - 100) (height img - 100) in
  let center := pixels img (width img / 2) (height img / 2) in
  ExtractLogoColor.script lib (logo_file img)
  = (map EvPrint
       [ "Average color: rgb" ++ tuple_repr avg;
         "Top-left (darker): rgb" ++ tuple_repr top_left;
         "Bottom-right (lighter): rgb" ++ tuple_repr bottom_right;
         "Center: rgb" ++ tuple_repr center;
         "";
         "Average: " ++ hex_of_pixel avg;
         "Top-left (recommended primary): " ++ hex_of_pixel top_left;
         "Bottom-right: " ++ hex_of_pixel bottom_right;
         "Center: " ++ hex_of_pixel center ]%string,
     Ok tt).
Proof.
  intros Hw Hh [Havg Hpx]. cbv zeta.
  unfold ExtractLogoColor.script.
  change (logo_file img "logo.png") with (Some img). unfold open_image.
  rewrite bind_ret.
  change (getpixel (resize lib img (1, 1)) (0, 0))
    with (ret (resample lib img (1, 1) 0 0)).
  rewrite bind_ret.
  assert (Hc : 0 <= width img / 2 < width img)
    by (split; [apply Z.div_pos; lia | apply Z.div_lt_upper_bound; lia]).
  assert (Hc' : 0 <= height img / 2 < height img)
    by (split; [apply Z.div_pos; lia | apply Z.div_lt_upper_bound; lia]).
  rewrite !SamplerFacts.getpixel_inside by lia.
  rewrite !(proj2 (Z.leb_gt _ _)) by lia. cbn [orb].
  rewrite !bind_ret.
  rewrite !rgb_to_hex_three by (first [exact Havg | apply Hpx]).
  cbv beta iota zeta delta [bind ret print emit app map]. reflexivity.
Qed.

(** X10. Given pixels of at least three channels, the sampler run completes exactly
    when the image is more than 100 pixels wide and high; it then prints nine
    lines, for the samples at (0,0) of the 1x1 reduction, (100,100),
    (width-100, height-100) and (width//2, height//2); otherwise it stops
    with an IndexError before printing anything. *)
Theorem sampler_completes_iff_large lib img :
  loaded img -> three_channels lib img ->
  let run := ExtractLogoColor.script lib (logo_file img) in
  (outcome run = Ok tt <-> 100 < width img /\ 100 < height img)
  /\ (outcome run <> Ok tt -> run = ([], Raise IndexError))
  /\ (outcome run = Ok tt ->
      List.length (printed (events run)) = 9%nat
      /\ firstn 4 (printed (events run))
         = [ "Average color: rgb" ++ tuple_repr (resample lib img (1, 1) 0 0);
             "Top-left (darker): rgb" ++ tuple_repr (pixels img 100 100);
             "Bottom-right (lighter): rgb"
               ++ tuple_repr (pixels img (width img - 100) (height img - 100));
             "Center: rgb"
               ++ tuple_repr (pixels img (width img / 2) (height img / 2))
           ]%string).
Proof.
  intros _ H3. cbv zeta.
  destruct (Z.ltb_spec 100 (width img)) as [Hw | Hw];
    [destruct (Z.ltb_spec 100 (height img)) as [Hh | Hh] |].
  - rewrite (sampler_large lib img Hw Hh H3). cbn [outcome events fst snd].
    split; [split; [intros _; split; assumption | reflexivity] |].
    split; [intros H; now elim H |]. intros _. split; reflexivity.
  - assert (E : ExtractLogoColor.script lib (logo_file img) = ([], Raise IndexError)).
    { unfold ExtractLogoColor.script.
      change (logo_file img "logo.png") with (Some img). unfold open_image.
      rewrite bind_ret.
      change (getpixel (resize lib img (1, 1)) (0, 0))
        with (ret (resample lib img (1, 1) 0 0)).
      rewrite bind_ret, (SamplerFacts.getpixel_inside img 100 100) by lia.
      rewrite (proj2 (Z.leb_le (height img) 100)), orb_true_r by lia.
      reflexivity. }
    rewrite E. cbn [outcome snd].
    split; [split; [discriminate | lia] |].
    split; [reflexivity | discriminate].
  - assert (E : ExtractLogoColor.script lib (logo_file img) = ([], Raise IndexError)).
    { unfold ExtractLogoColor.script.
      change (logo_file img "logo.png") with (Some img). unfold open_image.
      rewrite bind_ret.
      change (getpixel (resize lib img (1, 1)) (0, 0))
        with (ret (resample lib img (1, 1) 0 0)).
      rewrite bind_ret, (SamplerFacts.getpixel_inside img 100 100) by lia.
      rewrite (proj2 (Z.leb_le (width img) 100)) by lia.
      reflexivity. }
    rewrite E. cbn [outcome snd].
    split; [split; [discriminate | lia] |].
    split; [reflexivity | discriminate].
Qed.

Lemma nearest_three_channels w h : three_channels nearest (flat_image w h).
Proof. split; [| intros x y]; cbn; lia. Defined.

Lemma sampler_completes_iff_large_witness :
  let run := ExtractLogoColor.script nearest (logo_file (flat_image 512 300)) in
  (outcome run = Ok tt <-> 100 < 512 /\ 100 < 300)
  /\ (outcome run <> Ok tt -> run = ([], Raise IndexError))
  /\ (outcome run = Ok tt ->
      List.length (printed (events run)) = 9%nat
      /\ firstn 4 (printed (events run))
         = [ "Average color: rgb(59, 88, 148, 255)";
             "Top-left (darker): rgb(59, 88, 148, 255)";
             "Bottom-right (lighter): rgb(59, 88, 148, 255)";
             "Center: rgb(59, 88, 148, 255)" ]%string).
Proof.
  apply (sampler_completes_iff_large nearest (flat_image 512 300)).
  - unfold loaded; cbn; lia.
  - apply nearest_three_channels.
Defined.

(** *** Missing source, and the frames of the bundle *)

(** X11. When logo.png is missing or is no image, both scripts that open it stop
    with an error before producing anything: the sampler prints nothing, and
    the asset generator has created its output directory but written no
    file. *)
Theorem missing_logo_stops_the_run lib files :
  files "logo.png" = None ->
  ExtractLogoColor.script lib files = ([], Raise OSError)
  /\ GenerateLogo.script lib files = ([EvMkdir "public/logo"], Raise OSError)
  /\ written (events (GenerateLogo.script lib files)) = [].
Proof.
  intros H. unfold ExtractLogoColor.script, GenerateLogo.script.
  unfold GenerateLogo.original_logo. rewrite H. repeat split.
Qed.

Lemma missing_logo_stops_the_run_witness :
  ExtractLogoColor.script nearest (fun _ => None) = ([], Raise OSError)
  /\ GenerateLogo.script nearest (fun _ => None)
     = ([EvMkdir "public/logo"], Raise OSError)
  /\ written (events (GenerateLogo.script nearest (fun _ => None))) = [].
Proof. apply (missing_logo_stops_the_run nearest (fun _ => None)). reflexivity. Defined.

(** X12. On a decodable square source of any side n the asset generator completes
    and writes the four PNG files, then a bundle whose frames are exactly
    those of 16x16, 32x32, 64x64 that are not larger than the source: none
    for n < 16, one for n < 32, two for n < 64, all three from 64 on. *)
Theorem ico_frames_by_side lib img n :
  thumbnail_square lib -> width img = n -> height img = n -> 0 < n ->
  outcome (GenerateLogo.script lib (logo_file img)) = Ok tt
  /\ written (events (GenerateLogo.script lib (logo_file img)))
     = (png_outputs ++ [ico_output (frames_within n)])%list.
Proof.
  intros Hsq Hw Hh Hn.
  destruct (AssetFacts.generate_logo_written lib img) as [Hout Hfiles].
  split; [exact Hout |]. rewrite Hfiles. do 3 f_equal.
  unfold ico_frames, frames_within, GenerateLogo.ico_sizes.
  rewrite Hw, Hh. cbn [filter].
  change (256 <? 16) with false. change (256 <? 32) with false.
  change (256 <? 64) with false. rewrite !orb_false_r, !orb_diag.
  rewrite !Z.ltb_antisym, !negb_involutive.
  destruct (Z.leb_spec 16 n); destruct (Z.leb_spec 32 n);
    destruct (Z.leb_spec 64 n); try lia;
    cbn [map]; rewrite ?Hsq by lia; reflexivity.
Qed.

Lemma ico_frames_by_side_witness :
  outcome (GenerateLogo.script nearest (logo_file (flat_image 48 48))) = Ok tt
  /\ written (events (GenerateLogo.script nearest (logo_file (flat_image 48 48))))
     = (png_outputs ++ [ico_output [(16, 16); (32, 32)]])%list.
Proof.
  apply (ico_frames_by_side nearest (flat_image 48 48) 48);
    [exact AssetFacts.nearest_square | reflexivity | reflexivity | lia].
Defined.

End ScriptFacts.
